(** * Heavy-hitter estimators: LRU oracle, Min-Cut sketch, selective counting
      Bloom filter

    A shallow embedding of [data_structure.py], [min_cut.py] and
    [selective_counting_bloom_filter.py], and the properties of the three
    structures proved on it.

    Conventions of the embedding.
    - A Python [int] is a [Z]; a [str] is a [string]; a [list] is a [list].
    - A call that can raise returns a [result]: [Ok v] or [Raise e].
    - [len(a) / b] on two ints and the posterior of the Bloom filter are
      quotients of integers: they are kept exact, in [Q].  The admission bound
      goes through [math.pow] at a real exponent and [math.log]: it is a real
      number, in [R].  Rounding and the range of binary64 are not modelled.
    - [pymmh3] is an external package: its [hash] is the member of the class
      [Mmh3], and every theorem holds for every hash function.  The instance
      [Pymmh3.murmur3] is MurmurHash3 x86_32, under which the examples run. *)

From Stdlib Require Import ZArith QArith Qpower Qreals Reals Lia Psatz String Ascii List.
From stdpp Require Import base decidable list gmap strings.

Open Scope Z_scope.

(** ** Exceptions and the error monad *)

Inductive exn : Set :=
  | ZeroDivisionError
  | IndexError
  | KeyError
  | ValueError.

Inductive result (A : Type) : Type :=
  | Ok (a : A)
  | Raise (e : exn).
Arguments Ok {A} a.
Arguments Raise {A} e.

#[global] Instance result_ret : MRet result := λ A a, Ok a.
#[global] Instance result_bind : MBind result := λ A B f m,
  match m with
  | Ok a => f a
  | Raise e => Raise e
  end.

(** [for x in xs: body], the loop state threaded through the body. *)
Fixpoint for_in {A S : Type} (xs : list A) (body : A → S → result S) (s : S)
    : result S :=
  match xs with
  | [] => Ok s
  | x :: xs' => s' ← body x s; for_in xs' body s'
  end.

(** ** Python built-ins *)

(** [range(k)]: empty when [k <= 0]. *)
Definition range (k : Z) : list Z := seqZ 0 k.

(** [enumerate(xs)]. *)
Definition enumerate {A : Type} (xs : list A) : list (Z * A) :=
  zip (seqZ 0 (Z.of_nat (length xs))) xs.

(** [a % b] on ints: the sign of the divisor, as [Z.modulo]; raises on [0]. *)
Definition py_mod (a b : Z) : result Z :=
  if b =? 0 then Raise ZeroDivisionError else Ok (a mod b).

(** The position [l[i]] denotes: negative indices count from the end. *)
Definition py_position {A : Type} (l : list A) (i : Z) : option nat :=
  let len := Z.of_nat (length l) in
  if (0 <=? i) && (i <? len) then Some (Z.to_nat i)
  else if (- len <=? i) && (i <? 0) then Some (Z.to_nat (len + i))
  else None.

(** [l[i]]. *)
Definition getitem {A : Type} (l : list A) (i : Z) : result A :=
  match py_position l i with
  | Some j => match l !! j with Some x => Ok x | None => Raise IndexError end
  | None => Raise IndexError
  end.

(** [l[i] = x]. *)
Definition setitem {A : Type} (l : list A) (i : Z) (x : A) : result (list A) :=
  match py_position l i with
  | Some j => Ok (<[j := x]> l)
  | None => Raise IndexError
  end.

(** [a / b] on two ints, the exact quotient. *)
Definition truediv (a b : Z) : result Q :=
  if b =? 0 then Raise ZeroDivisionError else Ok (inject_Z a / inject_Z b)%Q.

(** [sys.maxsize] of a 64-bit CPython. *)
Definition sys_maxsize : Z := 2 ^ 63 - 1.

(** ** The hash package *)

(** [mmh3.hash(key, seed)]: a signed 32-bit integer. *)
Class Mmh3 := mmh3_hash : string → Z → Z.

(** ** [collections.OrderedDict], keys only

    Every [put] of the repository stores the default [value=None], and no
    value is ever read: the dictionary is the list of its keys, oldest
    first. *)
Module OrderedDict.

Abbreviation t := (list string) (only parsing).

(** [key in d]. *)
Definition contains (d : t) (key : string) : bool := bool_decide (key ∈ d).

(** [d[key] = None]: a new key goes to the end, a present key keeps its
    place. *)
Definition set (d : t) (key : string) : t :=
  if contains d key then d else d ++ [key].

(** [d.move_to_end(key)]. *)
Definition move_to_end (d : t) (key : string) : result t :=
  if contains d key
  then Ok (filter (λ k, k ≠ key) d ++ [key])
  else Raise KeyError.

(** [d.popitem(last=False)], the dictionary that is left. *)
Definition popitem_first (d : t) : result t :=
  match d with
  | [] => Raise KeyError
  | _ :: d' => Ok d'
  end.

End OrderedDict.

(** ** [class LRUCache] *)
Module LRUCache.

Record t := Build { cache : OrderedDict.t; capacity : Z }.

Definition __init__ (capacity : Z) : result t :=
  Ok {| cache := []; capacity := capacity |}.

Definition check_if_exists (self : t) (key : string) : bool :=
  if OrderedDict.contains (cache self) key then true else false.

Definition put (self : t) (key : string) : result t :=
  let d := OrderedDict.set (cache self) key in
  d ← OrderedDict.move_to_end d key;
  if capacity self <? Z.of_nat (length d)
  then d ← OrderedDict.popitem_first d;
       Ok {| cache := d; capacity := capacity self |}
  else Ok {| cache := d; capacity := capacity self |}.

Definition __len__ (self : t) : Z := Z.of_nat (length (cache self)).

(** A run of [put] calls, in order. *)
Definition put_all (self : t) (keys : list string) : result t :=
  for_in keys (λ key self, put self key) self.

End LRUCache.

(** ** [class DataStructure]: the hashing and the oracle both estimators share *)
Module DataStructure.

Record t := Build {
  num_of_hash_functions : Z;
  cache_size : Z;
  cache : LRUCache.t;
  cache_counter : Z
}.

Definition __init__ (num_of_hash_functions cache_size : Z) : result t :=
  cache ← LRUCache.__init__ cache_size;
  Ok {| num_of_hash_functions := num_of_hash_functions;
        cache_size := cache_size;
        cache := cache;
        cache_counter := 0 |}.

Definition is_exists (self : t) (element : string) : bool :=
  LRUCache.check_if_exists (cache self) element.

Definition with_cache (self : t) (c : LRUCache.t) : t :=
  {| num_of_hash_functions := num_of_hash_functions self;
     cache_size := cache_size self;
     cache := c;
     cache_counter := cache_counter self |}.

Section Hashing.
Context {H : Mmh3}.

Definition _get_hash_values (self : t) (element : string) (range_size : Z)
    : result (list Z) :=
  for_in (range (num_of_hash_functions self))
    (λ i output,
       hashed_value ← py_mod (mmh3_hash element i) range_size;
       Ok (output ++ [hashed_value]))
    [].

End Hashing.
End DataStructure.

(** ** [class MinCut] *)
Module MinCut.

Record t := Build {
  base : DataStructure.t;
  num_of_buckets : Z;
  num_of_elements_to_save : Z;
  table : list (list Z);
  elements : gset string
}.

Definition with_table (self : t) (tbl : list (list Z)) : t :=
  {| base := base self;
     num_of_buckets := num_of_buckets self;
     num_of_elements_to_save := num_of_elements_to_save self;
     table := tbl;
     elements := elements self |}.

(** The two nested loops never raise: they are folds. *)
Definition _init_table (self : t) (num_of_rows num_of_cols : Z) : t :=
  with_table self
    (foldl (λ tbl _,
              let new_col := foldl (λ col _, col ++ [0]) [] (range num_of_cols) in
              tbl ++ [new_col])
           (table self) (range num_of_rows)).

Definition __init__
    (num_of_elements_to_save num_of_buckets num_of_hash_functions cache_size : Z)
    : result t :=
  b ← DataStructure.__init__ num_of_hash_functions cache_size;
  let self := {| base := b;
                 num_of_buckets := num_of_buckets;
                 num_of_elements_to_save := num_of_elements_to_save;
                 table := [];
                 elements := ∅ |} in
  Ok (_init_table self num_of_hash_functions num_of_buckets).

(** [self.table[i][cell] += 1] for every row; the rows are distinct lists. *)
Definition _inc (self : t) (cells : list Z) : result t :=
  tbl ← for_in (enumerate cells)
    (λ '(i, cell) tbl,
       row ← getitem tbl i;
       val ← getitem row cell;
       row' ← setitem row cell (val + 1);
       setitem tbl i row')
    (table self);
  Ok (with_table self tbl).

Definition _count (self : t) (cells : list Z) : result Z :=
  for_in (enumerate cells)
    (λ '(i, cell) min_val,
       row ← getitem (table self) i;
       val ← getitem row cell;
       Ok (if val <? min_val then val else min_val))
    sys_maxsize.

Section Operations.
Context {H : Mmh3}.

Definition add_new (self : t) (element : string) : result t :=
  c ← LRUCache.put (DataStructure.cache (base self)) element;
  let self := {| base := DataStructure.with_cache (base self) c;
                 num_of_buckets := num_of_buckets self;
                 num_of_elements_to_save := num_of_elements_to_save self;
                 table := table self;
                 elements := {[ element ]} ∪ elements self |} in
  hashed_values ←
    DataStructure._get_hash_values (base self) element (num_of_buckets self);
  _inc self hashed_values.

Definition should_exists (self : t) (element : string) : result bool :=
  m ← truediv (Z.of_nat (size (elements self))) (num_of_elements_to_save self);
  hashed_values ←
    DataStructure._get_hash_values (base self) element (num_of_buckets self);
  total_sum ← _count self hashed_values;
  Ok (Qle_bool m (inject_Z total_sum)).

Definition is_exists (self : t) (element : string) : bool :=
  DataStructure.is_exists (base self) element.

(** A run of [add_new] calls, in order. *)
Definition add_all (self : t) (keys : list string) : result t :=
  for_in keys (λ key self, add_new self key) self.

End Operations.
End MinCut.

(** ** The [math] module, at the arguments the repository passes *)
Module math.

Definition e : R := exp 1.

(** [math.log(x, base)] is [log(x) / log(base)]. *)
Definition log (x base : R) : R := (ln x / ln base)%R.

(** [math.pow(x, y)] at a positive base and a real exponent. *)
Definition pow (x y : R) : R := Rpower x y.

(** [math.pow(x, y)] at two ints: exact; [0] to a negative power raises. *)
Definition pow_int (x y : Z) : result Q :=
  if (x =? 0) && (y <? 0) then Raise ValueError
  else Ok (Qpower (inject_Z x) y).

End math.

(** [a / b] on two floats, the exact quotient. *)
Definition fdiv (a b : Q) : result Q :=
  if Qeq_bool b 0 then Raise ZeroDivisionError else Ok (a / b)%Q.

(** ** [class SCBloomFilter] *)
Module SCBloomFilter.

Definition ALPHA : Z := 100.

Record t := Build {
  base : DataStructure.t;
  n : Z;
  max_n : Z;
  bound : R;
  bf_size : Z;
  bloom_filter : list Z;
  memory_size : Z;
  elements : gset string
}.

Definition with_bound (self : t) (b : R) : t :=
  {| base := base self; n := n self; max_n := max_n self; bound := b;
     bf_size := bf_size self; bloom_filter := bloom_filter self;
     memory_size := memory_size self; elements := elements self |}.

Definition with_bloom_filter (self : t) (bf : list Z) : t :=
  {| base := base self; n := n self; max_n := max_n self; bound := bound self;
     bf_size := bf_size self; bloom_filter := bf;
     memory_size := memory_size self; elements := elements self |}.

Definition with_n (self : t) (n' : Z) : t :=
  {| base := base self; n := n'; max_n := max_n self; bound := bound self;
     bf_size := bf_size self; bloom_filter := bloom_filter self;
     memory_size := memory_size self; elements := elements self |}.

Definition _update_bound (self : t) : result t :=
  if n self =? 0 then Ok (with_bound self 0%R)
  else
    ratio ← truediv (bf_size self) (max_n self);
    Ok (with_bound self
          (1 / (1 + IZR ALPHA *
                    math.pow 2 (math.log 2 math.e * Q2R ratio)))%R).

(** [__init__] calls [_update_bound] before [bf_size] is assigned; at [n = 0]
    the call does not read it. *)
Definition __init__
    (num_of_hash_functions cache_size bf_size max_n memory_size : Z)
    : result t :=
  b ← DataStructure.__init__ num_of_hash_functions cache_size;
  self ← _update_bound
    {| base := b; n := 0; max_n := max_n; bound := 0%R;
       bf_size := bf_size; bloom_filter := []; memory_size := memory_size;
       elements := ∅ |};
  Ok (with_bloom_filter self (replicate (Z.to_nat bf_size) 0)).

Definition _get_apriori_prob (self : t) : result Q :=
  truediv (LRUCache.__len__ (DataStructure.cache (base self)))
          (memory_size self).

Definition _satisfy_paradox (self : t) : result bool :=
  apriori_prob ← _get_apriori_prob self;
  Ok (if Rlt_dec (Q2R apriori_prob) (bound self) then true else false).

Section Operations.
Context {H : Mmh3}.

Definition _add_element_to_bloom_filter (self : t) (element : string)
    : result t :=
  hashed_values ←
    DataStructure._get_hash_values (base self) element (bf_size self);
  bf ← for_in hashed_values
    (λ value bf, c ← getitem bf value; setitem bf value (c + 1))
    (bloom_filter self);
  Ok (with_bloom_filter self bf).

(** The loop of [_check_bloom_filter], which returns from inside. *)
Fixpoint _check_loop (bf : list Z) (hashed_values : list Z) (mul_res : Z)
    : result Z :=
  match hashed_values with
  | [] => Ok mul_res
  | hash_val :: rest =>
      c ← getitem bf hash_val;
      if c =? 0 then Ok 0 else _check_loop bf rest (mul_res * c)
  end.

Definition _check_bloom_filter (self : t) (element : string) : result Z :=
  hashed_values ←
    DataStructure._get_hash_values (base self) element (bf_size self);
  _check_loop (bloom_filter self) hashed_values 1.

Definition add_new (self : t) (element : string) : result t :=
  c ← LRUCache.put (DataStructure.cache (base self)) element;
  let self :=
    {| base := DataStructure.with_cache (base self) c;
       n := n self; max_n := max_n self; bound := bound self;
       bf_size := bf_size self; bloom_filter := bloom_filter self;
       memory_size := memory_size self;
       elements := {[ element ]} ∪ elements self |} in
  paradox ← _satisfy_paradox self;
  if negb paradox then
    if max_n self =? n self then Ok self
    else
      self ← _add_element_to_bloom_filter self element;
      _update_bound (with_n self (n self + 1))
  else Ok self.

(** The posterior, up to the division: the numerator and the denominator. *)
Definition posterior_terms (self : t) (bf_ans : Z) : result (Q * Q) :=
  apriori_prob ← _get_apriori_prob self;
  p1 ← math.pow_int (bf_size self) (DataStructure.num_of_hash_functions (base self));
  let nominator := (p1 * inject_Z bf_ans * apriori_prob)%Q in
  p2 ← math.pow_int (n self * DataStructure.num_of_hash_functions (base self))
                    (DataStructure.num_of_hash_functions (base self));
  let denominator := (nominator + p2 * (1 - apriori_prob))%Q in
  Ok (nominator, denominator).

Definition should_exists (self : t) (element : string) : result bool :=
  bf_ans ← _check_bloom_filter self element;
  if bf_ans =? 0 then Ok false
  else
    '(nominator, denominator) ← posterior_terms self bf_ans;
    res ← fdiv nominator denominator;
    Ok (Qle_bool (1 / (1 + inject_Z ALPHA)) res).

Definition is_exists (self : t) (element : string) : bool :=
  DataStructure.is_exists (base self) element.

(** A run of [add_new] calls, in order. *)
Definition add_all (self : t) (keys : list string) : result t :=
  for_in keys (λ key self, add_new self key) self.

End Operations.
End SCBloomFilter.

(** ** MurmurHash3 x86_32, the function [pymmh3.hash] computes

    Written after the reference algorithm; no theorem below depends on it.
    It is the hash function the worked examples run with. *)
Module Pymmh3.

Definition mask32 (x : Z) : Z := Z.land x 0xFFFFFFFF.

Definition rotl32 (x r : Z) : Z :=
  mask32 (Z.lor (Z.shiftl x r) (Z.shiftr x (32 - r))).

Definition c1 : Z := 0xcc9e2d51.
Definition c2 : Z := 0x1b873593.

Definition fmix (h : Z) : Z :=
  let h := Z.lxor h (Z.shiftr h 16) in
  let h := mask32 (h * 0x85ebca6b) in
  let h := Z.lxor h (Z.shiftr h 13) in
  let h := mask32 (h * 0xc2b2ae35) in
  Z.lxor h (Z.shiftr h 16).

Definition scramble (k1 : Z) : Z :=
  mask32 (rotl32 (mask32 (c1 * k1)) 15 * c2).

(** The body: one round per block of four bytes; the bytes left over are
    returned with the state. *)
Fixpoint blocks (key : list Z) (h1 : Z) : Z * list Z :=
  match key with
  | b0 :: b1 :: b2 :: b3 :: rest =>
      let k1 := Z.lor (Z.lor (Z.lor (Z.shiftl b3 24) (Z.shiftl b2 16))
                             (Z.shiftl b1 8)) b0 in
      let h1 := Z.lxor h1 (scramble k1) in
      let h1 := rotl32 h1 13 in
      let h1 := mask32 (h1 * 5 + 0xe6546b64) in
      blocks rest h1
  | tl => (h1, tl)
  end.

Definition tail (tl : list Z) (h1 : Z) : Z :=
  match tl with
  | [] => h1
  | [b0] => Z.lxor h1 (scramble b0)
  | [b0; b1] => Z.lxor h1 (scramble (Z.lxor (Z.shiftl b1 8) b0))
  | b0 :: b1 :: b2 :: _ =>
      Z.lxor h1 (scramble (Z.lxor (Z.lxor (Z.shiftl b2 16) (Z.shiftl b1 8)) b0))
  end.

Definition bytes_of (key : string) : list Z :=
  (λ a, Z.of_N (N_of_ascii a)) <$> list_ascii_of_string key.

Definition hash (key : string) (seed : Z) : Z :=
  let bytes := bytes_of key in
  let '(h1, tl) := blocks bytes seed in
  let h1 := tail tl h1 in
  let unsigned_val := fmix (Z.lxor h1 (Z.of_nat (length bytes))) in
  if Z.land unsigned_val 0x80000000 =? 0 then unsigned_val
  else - (Z.lxor unsigned_val 0xFFFFFFFF + 1).

Definition murmur3 : Mmh3 := hash.

End Pymmh3.

(** ** [main.py]: the harness

    The two estimators are used through the three methods of
    [DataStructure]; [_test] is written once over that interface. *)
Class DataStructureOps (S : Type) := {
  ds_add_new : S → string → result S;
  ds_should_exists : S → string → result bool;
  ds_is_exists : S → string → bool
}.

#[global] Instance MinCut_ops {H : Mmh3} : DataStructureOps MinCut.t := {|
  ds_add_new := MinCut.add_new;
  ds_should_exists := MinCut.should_exists;
  ds_is_exists := MinCut.is_exists
|}.

#[global] Instance SCBloomFilter_ops {H : Mmh3}
    : DataStructureOps SCBloomFilter.t := {|
  ds_add_new := SCBloomFilter.add_new;
  ds_should_exists := SCBloomFilter.should_exists;
  ds_is_exists := SCBloomFilter.is_exists
|}.

(** [class Results] *)
Module Results.

Record t := Build { total : Z; fp : Z; tp : Z; fn : Z; tn : Z }.

Definition __init__ : t := {| total := 0; fp := 0; tp := 0; fn := 0; tn := 0 |}.

(** What an f-string is made of: text, an int, a float.  A float is kept as
    the exact quotient; its decimal rendering is not modelled. *)
Inductive piece : Type :=
  | Text (s : string)
  | Int (z : Z)
  | Float (q : Q).

Definition nl : string := String (ascii_of_nat 10) EmptyString.

(** [__repr__]: the pieces of the string, in the order the f-string
    evaluates them. *)
Definition __repr__ (self : t) : result (list piece) :=
  r1 ← truediv (fp self) (tn self + fp self);
  r2 ← truediv (tp self) (tp self + fn self);
  r3 ← truediv (fn self) (fn self + tp self);
  r4 ← truediv (tn self) (tn self + fp self);
  Ok [Text "False positive amount: "; Int (fp self); Text nl;
      Text "False positive rate: "; Float r1; Text nl;
      Text "True positive amount: "; Int (tp self); Text nl;
      Text "True positive rate: "; Float r2; Text nl;
      Text "False negative amount: "; Int (fn self); Text nl;
      Text "False negative rate: "; Float r3; Text nl;
      Text "True negative amount: "; Int (tn self); Text nl;
      Text "True negative rate: "; Float r4; Text nl].

End Results.

Module main.

Definition BF_SIZE : Z := 33280.
Definition NUM_OF_HASH_FUNCTIONS : Z := 30.
Definition CACHE_SIZE : Z := 5000.
Definition MC_NUM_OF_HEAVY_HITTERS : Z := 350.
Definition MC_NUM_OF_BUCKETS : Z := 350.
Definition BF_MEMORY_SIZE : Z := 1600000.
Definition BF_MAX_NUMBER_OF_ELEMENTS : Z := 2300.

(** One query of [_test]: the cell of the confusion matrix and the total go
    up by one. *)
Definition tally_query (should_exists is_exists : bool) (results : Results.t)
    : Results.t :=
  let results :=
    if should_exists then
      if is_exists
      then {| Results.total := Results.total results;
              Results.fp := Results.fp results;
              Results.tp := Results.tp results + 1;
              Results.fn := Results.fn results;
              Results.tn := Results.tn results |}
      else {| Results.total := Results.total results;
              Results.fp := Results.fp results + 1;
              Results.tp := Results.tp results;
              Results.fn := Results.fn results;
              Results.tn := Results.tn results |}
    else
      if is_exists
      then {| Results.total := Results.total results;
              Results.fp := Results.fp results;
              Results.tp := Results.tp results;
              Results.fn := Results.fn results + 1;
              Results.tn := Results.tn results |}
      else {| Results.total := Results.total results;
              Results.fp := Results.fp results;
              Results.tp := Results.tp results;
              Results.fn := Results.fn results;
              Results.tn := Results.tn results + 1 |} in
  {| Results.total := Results.total results + 1;
     Results.fp := Results.fp results;
     Results.tp := Results.tp results;
     Results.fn := Results.fn results;
     Results.tn := Results.tn results |}.

Section Harness.
Context {S : Type} `{!DataStructureOps S}.

Definition _test (ds : S) (ips_to_insert ips_to_query : list string)
    : result Results.t :=
  ds ← for_in ips_to_insert (λ ip ds, ds_add_new ds ip) ds;
  for_in ips_to_query
    (λ ip results,
       should_exists ← ds_should_exists ds ip;
       Ok (tally_query should_exists (ds_is_exists ds ip) results))
    Results.__init__.

End Harness.

Section Tests.
Context {H : Mmh3}.

Definition test_min_cut (ips_to_insert ips_to_query : list string)
    : result Results.t :=
  min_cut_ds ← MinCut.__init__ MC_NUM_OF_HEAVY_HITTERS MC_NUM_OF_BUCKETS
                  NUM_OF_HASH_FUNCTIONS CACHE_SIZE;
  _test min_cut_ds ips_to_insert ips_to_query.

Definition test_sc_bloom_filter (ips_to_insert ips_to_query : list string)
    : result Results.t :=
  bloom_filter_ds ← SCBloomFilter.__init__ NUM_OF_HASH_FUNCTIONS CACHE_SIZE
                       BF_SIZE BF_MAX_NUMBER_OF_ELEMENTS BF_MEMORY_SIZE;
  _test bloom_filter_ds ips_to_insert ips_to_query.

End Tests.
End main.

(** * The vocabulary of the properties *)

(** ** The oracle *)
Section OracleVocabulary.
Import LRUCache.

(** What the dictionary holds once [put] has set the key and moved it to the
    end, before the capacity is looked at. *)
Definition refreshed (d : OrderedDict.t) (key : string) : OrderedDict.t :=
  filter (λ k, k ≠ key) d ++ [key].

(** The invariant of the oracle: distinct keys, no more than the capacity. *)
Definition lru_inv (self : t) : Prop :=
  NoDup (cache self) ∧ Z.of_nat (length (cache self)) <= capacity self.

(** The oracle after the keys [ks]: distinct keys among those put, at most
    [capacity] of them, and all of them as long as nothing was evicted. *)
Definition window_of (ks : list string) (c : t) : Prop :=
  NoDup (cache c) ∧
  Z.of_nat (length (cache c)) <= capacity c ∧
  (list_to_set (cache c) : gset string) ⊆ list_to_set ks ∧
  (Z.of_nat (length (cache c)) = capacity c ∨
   (list_to_set (cache c) : gset string) = list_to_set ks).

End OracleVocabulary.

(** ** The multi-hash mapping *)
Section HashVocabulary.
Context {H : Mmh3}.

(** The indices of a key: one per seed, each hash reduced modulo the range. *)
Definition indices (k : Z) (element : string) (range_size : Z) : list Z :=
  (λ i, mmh3_hash element i `mod` range_size) <$> range k.

End HashVocabulary.

(** ** Fresh instances *)

(** What [MinCut(...)] returns. *)
Definition MinCut_fresh
    (num_of_elements_to_save num_of_buckets num_of_hash_functions cache_size : Z)
    : MinCut.t :=
  {| MinCut.base :=
       {| DataStructure.num_of_hash_functions := num_of_hash_functions;
          DataStructure.cache_size := cache_size;
          DataStructure.cache :=
            {| LRUCache.cache := []; LRUCache.capacity := cache_size |};
          DataStructure.cache_counter := 0 |};
     MinCut.num_of_buckets := num_of_buckets;
     MinCut.num_of_elements_to_save := num_of_elements_to_save;
     MinCut.table :=
       replicate (Z.to_nat num_of_hash_functions)
                 (replicate (Z.to_nat num_of_buckets) 0);
     MinCut.elements := ∅ |}.

(** What [SCBloomFilter(...)] returns. *)
Definition SCBloomFilter_fresh
    (num_of_hash_functions cache_size bf_size max_n memory_size : Z)
    : SCBloomFilter.t :=
  {| SCBloomFilter.base :=
       {| DataStructure.num_of_hash_functions := num_of_hash_functions;
          DataStructure.cache_size := cache_size;
          DataStructure.cache :=
            {| LRUCache.cache := []; LRUCache.capacity := cache_size |};
          DataStructure.cache_counter := 0 |};
     SCBloomFilter.n := 0;
     SCBloomFilter.max_n := max_n;
     SCBloomFilter.bound := 0%R;
     SCBloomFilter.bf_size := bf_size;
     SCBloomFilter.bloom_filter := replicate (Z.to_nat bf_size) 0;
     SCBloomFilter.memory_size := memory_size;
     SCBloomFilter.elements := ∅ |}.

(** ** The counter table of the Min-Cut sketch *)

(** The sum of the counters of a row. *)
Definition row_sum (row : list Z) : Z := foldr Z.add 0 row.

(** The counter at row [i], column [j]. *)
Definition counter (tbl : list (list Z)) (i j : nat) : Z := (tbl !!! i) !!! j.

(** One row after [row[cell] += 1]. *)
Definition bump (row : list Z) (cell : Z) : list Z :=
  <[Z.to_nat cell := row !!! Z.to_nat cell + 1]> row.

(** A cell per row, each inside its row. *)
Definition cells_fit (tbl : list (list Z)) (cells : list Z) : Prop :=
  Forall2 (λ row cell, 0 <= cell < Z.of_nat (length row)) tbl cells.

(** The body of the loop of [_inc]. *)
Definition inc_body : Z * Z → list (list Z) → result (list (list Z)) :=
  λ '(i, cell) tbl,
    row ← getitem tbl i;
    val ← getitem row cell;
    row' ← setitem row cell (val + 1);
    setitem tbl i row'.

(** The counters a key reads, one per row. *)
Definition reads (tbl : list (list Z)) (cells : list Z) : list Z :=
  zip_with (λ row cell, row !!! Z.to_nat cell) tbl cells.

(** The running minimum of [_count]. *)
Definition lower (min_val val : Z) : Z := if val <? min_val then val else min_val.

Section SketchVocabulary.
Context {H : Mmh3}.
Variables (ets nb k : Z).

(** [k] rows of [nb] counters. *)
Definition table_shape (tbl : list (list Z)) : Prop :=
  length tbl = Z.to_nat k ∧ Forall (λ row, length row = Z.to_nat nb) tbl.

(** The key [x] falls in column [j] of row [i]. *)
Definition hits (i j : nat) (x : string) : Prop :=
  Z.to_nat (mmh3_hash x (Z.of_nat i) `mod` nb) = j.

#[global] Instance hits_dec i j x : Decision (hits i j x).
Proof. unfold hits. apply _. Defined.

(** How many of the keys fall in column [j] of row [i]. *)
Definition tally (ks : list string) (i j : nat) : Z :=
  Z.of_nat (length (filter (hits i j) ks)).

(** The sketch after the keys [ks] went through [add_new]: the parameters
    are those it was built with, and every counter is the tally of its
    cell. *)
Record sketch_of (ks : list string) (s : MinCut.t) : Prop := {
  sketch_k : DataStructure.num_of_hash_functions (MinCut.base s) = k;
  sketch_nb : MinCut.num_of_buckets s = nb;
  sketch_ets : MinCut.num_of_elements_to_save s = ets;
  sketch_shape : table_shape (MinCut.table s);
  sketch_elements : MinCut.elements s = list_to_set ks;
  sketch_counter : ∀ i j, (i < Z.to_nat k)%nat → (j < Z.to_nat nb)%nat →
                     counter (MinCut.table s) i j = tally ks i j
}.

(** The counters of a key: in each row, the one its hash for that row
    selects. *)
Definition key_counters (s : MinCut.t) (key : string) : list Z :=
  (λ i, counter (MinCut.table s) (Z.to_nat i)
          (Z.to_nat (mmh3_hash key i `mod` MinCut.num_of_buckets s)))
  <$> range (DataStructure.num_of_hash_functions (MinCut.base s)).


End SketchVocabulary.

(** *** The scenario of the specification: 10 buckets, 2 hash functions,
    5 elements to save; one address five times, four others once. *)
Definition scenario_keys : list string :=
  ["10.0.0.1"; "10.0.0.2"; "10.0.0.1"; "10.0.0.3"; "10.0.0.1";
   "10.0.0.4"; "10.0.0.1"; "10.0.0.5"; "10.0.0.1"].

(** ** The selective counting Bloom filter *)

(** The value [_update_bound] stores once a key was admitted, with
    [math.log(2, math.e)] written as [ln 2]. *)
Definition admission_bound (bf mx : Z) : R :=
  (1 / (1 + IZR SCBloomFilter.ALPHA * Rpower 2 (ln 2 * (IZR bf / IZR mx))))%R.

Section FilterVocabulary.
Variables (k cs bf mx mem : Z).
Import SCBloomFilter.

(** What holds of every filter reached from a fresh one. *)
Record filter_of (s : t) : Prop := {
  filter_k : DataStructure.num_of_hash_functions (base s) = k;
  filter_bf : bf_size s = bf;
  filter_mx : max_n s = mx;
  filter_mem : memory_size s = mem;
  filter_len : length (bloom_filter s) = Z.to_nat bf;
  filter_n : 0 <= n s <= mx;
  filter_bound : bound s = if n s =? 0 then 0%R else admission_bound bf mx;
  filter_cap : LRUCache.capacity (DataStructure.cache (base s)) = cs;
  filter_lru : 0 <= cs → lru_inv (DataStructure.cache (base s));
  filter_nonneg : Forall (λ c, 0 <= c) (bloom_filter s);
  filter_unused : n s = 0 → Forall (λ c, c = 0) (bloom_filter s)
}.

(** The filter once [add_new] has recorded the key in the oracle and in the
    set of elements, before the admission test. *)
Definition observed (s : t) (c : LRUCache.t) (x : string) : t :=
  {| base := DataStructure.with_cache (base s) c; n := n s;
     max_n := max_n s; bound := bound s; bf_size := bf_size s;
     bloom_filter := bloom_filter s; memory_size := memory_size s;
     elements := {[x]} ∪ elements s |}.

(** The filter after [add_new] admitted the key. *)
Definition admitted (s : t) (c : LRUCache.t) (x : string) (bfl : list Z) : t :=
  {| base := DataStructure.with_cache (base s) c; n := n s + 1;
     max_n := max_n s;
     bound := admission_bound (bf_size s) (max_n s);
     bf_size := bf_size s; bloom_filter := bfl;
     memory_size := memory_size s; elements := {[x]} ∪ elements s |}.

End FilterVocabulary.

(** * Properties *)

(** Reference values of MurmurHash3 x86_32. *)
Example murmur3_foo : Pymmh3.hash "foo" 0 = -156908512.
Proof. reflexivity. Qed.

Example murmur3_empty_seed1 : Pymmh3.hash "" 1 = 0x514E28B7.
Proof. reflexivity. Qed.

Example murmur3_hello : Pymmh3.hash "Hello, world!" 0 = 0xc0363e43 - 2 ^ 32.
Proof. reflexivity. Qed.

Example murmur3_abc : Pymmh3.hash "abc" 0x9747b28c = 0xC84A62DD - 2 ^ 32.
Proof. reflexivity. Qed.

(** Decide a closed, decidable proposition by evaluation. *)
Ltac by_evaluation :=
  match goal with
  | |- ?P => apply (bool_decide_unpack P); vm_compute; exact I
  end.

(** ** The error monad and the loops *)

Lemma py_mod_ok (a b : Z) : b ≠ 0 → py_mod a b = Ok (a `mod` b).
Proof. intros Hb. unfold py_mod. by destruct (Z.eqb_spec b 0). Qed.

Lemma for_in_app {A S : Type} (xs ys : list A) (body : A → S → result S) (s : S) :
  for_in (xs ++ ys) body s = (s' ← for_in xs body s; for_in ys body s').
Proof.
  revert s. induction xs as [|x xs IH]; intros s; simpl; [done|].
  destruct (body x s) as [s'|e]; simpl; [apply IH | done].
Qed.

Lemma for_in_snoc {A S : Type} (xs : list A) (x : A) (body : A → S → result S)
    (s s' : S) :
  for_in xs body s = Ok s' → for_in (xs ++ [x]) body s = body x s'.
Proof.
  intros Hrun. rewrite for_in_app, Hrun. simpl.
  by destruct (body x s').
Qed.

(** A loop whose body keeps an invariant and never raises runs to the end. *)
Lemma for_in_invariant {A S : Type} (I : S → Prop) (xs : list A)
    (body : A → S → result S) (s : S) :
  I s →
  (∀ x s, x ∈ xs → I s → ∃ s', body x s = Ok s' ∧ I s') →
  ∃ s', for_in xs body s = Ok s' ∧ I s'.
Proof.
  revert s. induction xs as [|x xs IH]; intros s Hs Hbody; simpl.
  - eauto.
  - destruct (Hbody x s) as (s1 & -> & Hs1); [left | done |]. simpl.
    apply IH; [done|]. intros y s2 Hy. apply Hbody. by right.
Qed.

(** ** The recency oracle *)
Section LRU.
Import LRUCache.

Lemma contains_true (d : OrderedDict.t) (key : string) :
  OrderedDict.contains d key = true ↔ key ∈ d.
Proof. unfold OrderedDict.contains. apply bool_decide_eq_true. Qed.

Lemma contains_false (d : OrderedDict.t) (key : string) :
  OrderedDict.contains d key = false ↔ key ∉ d.
Proof. unfold OrderedDict.contains. apply bool_decide_eq_false. Qed.

Lemma filter_absent (d : list string) (key : string) :
  key ∉ d → filter (λ k, k ≠ key) d = d.
Proof.
  induction d as [|x d IH]; intros Hnot; [done|].
  apply not_elem_of_cons in Hnot as [Hne Hnot].
  rewrite filter_cons_True by congruence. by rewrite IH.
Qed.

Lemma filter_present_length (d : list string) (key : string) :
  NoDup d → key ∈ d → S (length (filter (λ k, k ≠ key) d)) = length d.
Proof.
  induction d as [|x d IH]; intros Hnd Hin; [by apply elem_of_nil in Hin|].
  apply NoDup_cons in Hnd as [Hx Hnd].
  destruct (decide (x = key)) as [->|Hne].
  - rewrite filter_cons_False by (intros Hk; by apply Hk).
    by rewrite filter_absent.
  - rewrite filter_cons_True by done. simpl.
    apply elem_of_cons in Hin as [->|Hin]; [done|]. by rewrite IH.
Qed.

Lemma filter_NoDup_snoc (d : list string) (key : string) :
  NoDup d → NoDup (filter (λ k, k ≠ key) d ++ [key]).
Proof.
  intros Hnd. apply NoDup_app. split_and!.
  - by apply NoDup_filter.
  - intros x Hx Hx'. apply list_elem_of_filter in Hx as [Hne _].
    apply list_elem_of_singleton in Hx'. done.
  - apply NoDup_singleton.
Qed.

Lemma set_move_to_end (d : OrderedDict.t) (key : string) :
  OrderedDict.move_to_end (OrderedDict.set d key) key = Ok (refreshed d key).
Proof.
  unfold OrderedDict.set, OrderedDict.move_to_end, refreshed.
  destruct (OrderedDict.contains d key) eqn:Hc.
  - by rewrite Hc.
  - assert (Hin : OrderedDict.contains (d ++ [key]) key = true).
    { apply contains_true, elem_of_app. right. by apply list_elem_of_singleton. }
    rewrite Hin, filter_app. f_equal.
    rewrite filter_cons_False by (intros Hk; by apply Hk).
    rewrite filter_nil. by rewrite app_nil_r.
Qed.

Lemma put_unfold (self : t) (key : string) :
  put self key =
    let d := refreshed (cache self) key in
    if capacity self <? Z.of_nat (length d)
    then Ok {| cache := List.tl d; capacity := capacity self |}
    else Ok {| cache := d; capacity := capacity self |}.
Proof.
  unfold put. rewrite set_move_to_end. simpl.
  destruct (capacity self <? _); [|done].
  unfold refreshed. by destruct (filter _ (cache self)).
Qed.

Lemma refreshed_length_absent (d : OrderedDict.t) (key : string) :
  key ∉ d → refreshed d key = d ++ [key].
Proof. intros Hn. unfold refreshed. by rewrite filter_absent. Qed.

Lemma refreshed_length_present (d : OrderedDict.t) (key : string) :
  NoDup d → key ∈ d → length (refreshed d key) = length d.
Proof.
  intros Hnd Hin. unfold refreshed. rewrite length_app. simpl.
  rewrite <- (filter_present_length d key Hnd Hin). lia.
Qed.

Lemma put_total (self : t) (key : string) :
  ∃ self', put self key = Ok self' ∧ capacity self' = capacity self.
Proof.
  rewrite put_unfold. simpl. destruct (capacity self <? _); eauto.
Qed.

Lemma put_inv (self : t) (key : string) :
  0 <= capacity self → lru_inv self →
  ∃ self', put self key = Ok self' ∧ capacity self' = capacity self ∧
           lru_inv self'.
Proof.
  intros Hcap [Hnd Hlen]. rewrite put_unfold. simpl.
  pose proof (filter_NoDup_snoc (cache self) key Hnd) as Hnd'.
  fold (refreshed (cache self) key) in Hnd'.
  destruct (decide (key ∈ cache self)) as [Hin|Hnot].
  - pose proof (refreshed_length_present _ _ Hnd Hin) as Hl.
    destruct (Z.ltb_spec (capacity self) (Z.of_nat (length (refreshed (cache self) key))));
      [lia|].
    eexists; split_and!; [done|done|]. split; simpl; [done|lia].
  - pose proof (refreshed_length_absent _ _ Hnot) as Hr. rewrite Hr in *.
    rewrite length_app. simpl.
    destruct (Z.ltb_spec (capacity self) (Z.of_nat (length (cache self) + 1))).
    + eexists; split_and!; [done|done|]. split; simpl.
      * destruct (cache self); simpl in *; [apply NoDup_nil_2|].
        by apply NoDup_cons in Hnd' as [_ ?].
      * destruct (cache self); simpl in *; [lia|]. rewrite length_app. simpl. lia.
    + eexists; split_and!; [done|done|]. split; simpl; [done|].
      rewrite length_app. simpl. lia.
Qed.

Lemma put_all_inv (self : t) (keys : list string) :
  0 <= capacity self → lru_inv self →
  ∃ self', put_all self keys = Ok self' ∧ capacity self' = capacity self ∧
           lru_inv self'.
Proof.
  intros Hcap Hinv. unfold put_all.
  destruct (for_in_invariant
              (λ s, capacity s = capacity self ∧ lru_inv s) keys
              (λ key s, put s key) self) as (s' & Hrun & Hc & Hi); [done| |eauto].
  intros key s _ [Hc Hi].
  destruct (put_inv s key) as (s' & Hp & Hc' & Hi'); [lia|done|].
  exists s'. split_and!; [done|congruence|done].
Qed.

Lemma put_all_snoc (self self' : t) (keys : list string) (key : string) :
  put_all self keys = Ok self' → put_all self (keys ++ [key]) = put self' key.
Proof.
  intros Hrun. unfold put_all.
  by rewrite (for_in_snoc _ _ _ _ _ Hrun).
Qed.

Lemma tl_drop_snoc (keys : list string) (key : string) (m : nat) :
  (m ≤ length keys)%nat →
  List.tl (drop m keys ++ [key]) = drop (S m) (keys ++ [key]).
Proof.
  revert m. induction keys as [|x keys IH]; intros m Hm; simpl in *.
  - assert (m = 0%nat) as -> by lia. done.
  - destruct m as [|m]; simpl; [by rewrite drop_0|].
    rewrite <- IH by lia. done.
Qed.

(** Distinct keys put into an empty oracle: the window is the last
    [capacity] of them, in order. *)
Lemma put_all_distinct (N : Z) (keys : list string) :
  0 <= N → NoDup keys →
  put_all {| cache := []; capacity := N |} keys =
    Ok {| cache := drop (length keys - Z.to_nat N) keys; capacity := N |}.
Proof.
  intros HN. induction keys as [|key keys IH] using rev_ind; intros Hnd.
  - done.
  - apply NoDup_app in Hnd as (Hnd & Hfresh & _).
    rewrite (put_all_snoc _ _ _ _ (IH Hnd)), put_unfold. simpl.
    assert (Hnot : key ∉ drop (length keys - Z.to_nat N) keys).
    { intros Hin. apply (Hfresh key); [|by apply list_elem_of_singleton].
      apply list_elem_of_lookup in Hin as [i Hi].
      rewrite lookup_drop in Hi. by eapply list_elem_of_lookup_2. }
    rewrite (refreshed_length_absent _ _ Hnot).
    rewrite !length_app, length_drop. simpl.
    destruct (Z.ltb_spec N (Z.of_nat (length keys - (length keys - Z.to_nat N) + 1))).
    + rewrite tl_drop_snoc by lia.
      by replace (length keys + 1 - Z.to_nat N)%nat
        with (S (length keys - Z.to_nat N)) by lia.
    + replace (length keys - Z.to_nat N)%nat with 0%nat by lia.
      replace (length keys + 1 - Z.to_nat N)%nat with 0%nat by lia.
      by rewrite !drop_0.
Qed.

(** C4.  An oracle of capacity [N > 0] that went through any run of [put]
    calls holds at most [N] keys.  On the next [put]: a key already held moves
    to the most recent place and the number of keys is unchanged; a new key
    is appended while there is room; a new key put into a full oracle evicts
    the key at the oldest place, and only that one.  After [N + 1] distinct
    keys [is_exists] is false on the first one and true on each of the [N]
    others. *)
Theorem lru_capacity_and_window (N : Z) (keys : list string) :
  0 < N →
  ∃ c, (c0 ← __init__ N; put_all c0 keys) = Ok c ∧
    Z.of_nat (length (cache c)) <= N ∧
    (∀ key, ∃ c', put c key = Ok c' ∧
       Z.of_nat (length (cache c')) <= N ∧
       (key ∈ cache c →
          cache c' = filter (λ k, k ≠ key) (cache c) ++ [key] ∧
          length (cache c') = length (cache c)) ∧
       (key ∉ cache c → Z.of_nat (length (cache c)) < N →
          cache c' = cache c ++ [key]) ∧
       (key ∉ cache c → Z.of_nat (length (cache c)) = N →
          ∃ oldest rest, cache c = oldest :: rest ∧ cache c' = rest ++ [key])) ∧
    (NoDup keys → Z.of_nat (length keys) = N + 1 →
       ∃ oldest recent, keys = oldest :: recent ∧
         ∀ ds, DataStructure.cache ds = c →
           DataStructure.is_exists ds oldest = false ∧
           ∀ k, k ∈ recent → DataStructure.is_exists ds k = true).
Proof.
  intros HN. simpl.
  destruct (put_all_inv {| cache := []; capacity := N |} keys)
    as (c & Hrun & Hcap & Hnd & Hlen); [simpl; lia | |].
  { split; simpl; [apply NoDup_nil_2 | lia]. }
  simpl in Hcap. exists c. split; [done|]. split; [lia|]. split.
  - intros key.
    destruct (put_inv c key) as (c' & Hput & Hcap' & Hnd' & Hlen');
      [lia | by split |].
    exists c'. split; [done|]. split; [lia|].
    rewrite put_unfold in Hput. simpl in Hput. split_and!.
    + intros Hin. pose proof (refreshed_length_present _ _ Hnd Hin) as Hl.
      destruct (Z.ltb_spec (capacity c) (Z.of_nat (length (refreshed (cache c) key))));
        [lia|].
      injection Hput as <-. done.
    + intros Hnot Hroom. rewrite (refreshed_length_absent _ _ Hnot) in Hput.
      rewrite length_app in Hput. simpl in Hput.
      destruct (Z.ltb_spec (capacity c) (Z.of_nat (length (cache c) + 1))); [lia|].
      by injection Hput as <-.
    + intros Hnot Hfull. rewrite (refreshed_length_absent _ _ Hnot) in Hput.
      rewrite length_app in Hput. simpl in Hput.
      destruct (Z.ltb_spec (capacity c) (Z.of_nat (length (cache c) + 1))); [|lia].
      injection Hput as <-. simpl.
      destruct (cache c) as [|oldest rest]; [simpl in *; lia|]. by exists oldest, rest.
  - intros Hdistinct Hcount.
    rewrite put_all_distinct in Hrun by (done || lia). injection Hrun as <-.
    destruct keys as [|oldest recent]; [simpl in *; lia|].
    exists oldest, recent. split; [done|].
    replace (length (oldest :: recent) - Z.to_nat N)%nat with 1%nat
      by (simpl in *; lia).
    simpl. rewrite drop_0. apply NoDup_cons in Hdistinct as [Hold _].
    intros ds Hds. unfold DataStructure.is_exists. rewrite Hds.
    unfold check_if_exists. simpl. split.
    + by apply contains_false in Hold as ->.
    + intros k Hk. by apply contains_true in Hk as ->.
Qed.

(** The example of the specification: capacity 3, four addresses. *)
Lemma lru_capacity_and_window_example :
  0 < 3 ∧
  ∃ c, (c0 ← __init__ 3;
        put_all c0 ["10.0.0.1"; "10.0.0.2"; "10.0.0.3"; "10.0.0.4"]) = Ok c ∧
       check_if_exists c "10.0.0.1" = false ∧
       check_if_exists c "10.0.0.4" = true.
Proof.
  split; [lia|].
  destruct (lru_capacity_and_window 3
              ["10.0.0.1"; "10.0.0.2"; "10.0.0.3"; "10.0.0.4"])
    as (c & Hrun & _ & _ & Hwindow); [lia|].
  exists c. split; [exact Hrun|].
  destruct Hwindow as (oldest & recent & Hkeys & Hwin);
    [by_evaluation | reflexivity |].
  injection Hkeys as <- <-.
  destruct (Hwin (DataStructure.Build 1 3 c 0) eq_refl) as [Hold Hrecent].
  split; [exact Hold|].
  apply Hrecent. by_evaluation.
Defined.

End LRU.

(** ** The multi-hash mapping *)
Section HashIndexer.
Context {H : Mmh3}.
Import DataStructure.

Lemma hash_loop (element : string) (range_size : Z) (seeds acc : list Z) :
  range_size ≠ 0 →
  for_in seeds
    (λ i output,
       hashed_value ← py_mod (mmh3_hash element i) range_size;
       Ok (output ++ [hashed_value]))
    acc
  = Ok (acc ++ ((λ i, mmh3_hash element i `mod` range_size) <$> seeds)).
Proof.
  intros Hr. revert acc. induction seeds as [|i seeds IH]; intros acc; simpl.
  - by rewrite app_nil_r.
  - rewrite py_mod_ok by done. simpl. rewrite IH. by rewrite <- app_assoc.
Qed.

Lemma _get_hash_values_ok (self : t) (element : string) (range_size : Z) :
  range_size ≠ 0 →
  _get_hash_values self element range_size =
    Ok (indices (num_of_hash_functions self) element range_size).
Proof. intros Hr. unfold _get_hash_values. by rewrite hash_loop. Qed.

Lemma _get_hash_values_no_seed (self : t) (element : string) (range_size : Z) :
  num_of_hash_functions self <= 0 →
  _get_hash_values self element range_size = Ok [].
Proof.
  intros Hk. unfold _get_hash_values, range.
  destruct (num_of_hash_functions self); try done; lia.
Qed.

Lemma _get_hash_values_zero (self : t) (element : string) :
  0 < num_of_hash_functions self →
  _get_hash_values self element 0 = Raise ZeroDivisionError.
Proof.
  intros Hk. unfold _get_hash_values, range.
  rewrite seqZ_cons by done. done.
Qed.

Lemma indices_length (k : Z) (element : string) (range_size : Z) :
  length (indices k element range_size) = Z.to_nat k.
Proof. unfold indices, range. by rewrite length_fmap, length_seqZ. Qed.

Lemma indices_lookup (k : Z) (element : string) (range_size : Z) (i : nat) :
  (i < Z.to_nat k)%nat →
  indices k element range_size !! i =
    Some (mmh3_hash element (Z.of_nat i) `mod` range_size).
Proof.
  intros Hi. unfold indices, range. rewrite list_lookup_fmap.
  rewrite lookup_seqZ_lt by lia. done.
Qed.

Lemma indices_in_range (k : Z) (element : string) (range_size : Z) :
  0 < range_size →
  Forall (λ v, 0 <= v < range_size) (indices k element range_size).
Proof.
  intros Hr. unfold indices. apply Forall_fmap, Forall_true. intros i. simpl.
  apply Z.mod_pos_bound. done.
Qed.

Lemma indices_negative_range (k : Z) (element : string) (range_size : Z) :
  range_size < 0 →
  Forall (λ v, range_size < v <= 0) (indices k element range_size).
Proof.
  intros Hr. unfold indices. apply Forall_fmap, Forall_true. intros i. simpl.
  apply Z.mod_neg_bound. done.
Qed.

(** C9, as the code has it.  For [range_size > 0] the mapping returns one
    index per hash function, each in [[0, range_size)].  There is no range
    check: [range_size = 0] raises [ZeroDivisionError] at the first hash, and
    [range_size < 0] raises nothing and returns indices in
    [(range_size, 0]]. *)
Theorem get_hash_values_contract (self : t) (element : string) (range_size : Z) :
  (0 < range_size →
     ∃ l, _get_hash_values self element range_size = Ok l ∧
          length l = Z.to_nat (num_of_hash_functions self) ∧
          Forall (λ v, 0 <= v < range_size) l) ∧
  (range_size = 0 → 0 < num_of_hash_functions self →
     _get_hash_values self element range_size = Raise ZeroDivisionError) ∧
  (range_size < 0 →
     ∃ l, _get_hash_values self element range_size = Ok l ∧
          length l = Z.to_nat (num_of_hash_functions self) ∧
          Forall (λ v, range_size < v <= 0) l).
Proof.
  split_and!.
  - intros Hr. eexists. split; [apply _get_hash_values_ok; lia|].
    split; [apply indices_length | by apply indices_in_range].
  - intros -> Hk. by apply _get_hash_values_zero.
  - intros Hr. eexists. split; [apply _get_hash_values_ok; lia|].
    split; [apply indices_length | by apply indices_negative_range].
Qed.

End HashIndexer.

(** C9 as stated fails: a negative range raises nothing, and the indices
    returned lie outside [[0, range_size)]. *)
Lemma get_hash_values_negative_range :
  (self ← DataStructure.__init__ 2 3;
   @DataStructure._get_hash_values Pymmh3.murmur3 self "10.0.0.1" (-5))
  = Ok [-1; 0].
Proof. reflexivity. Qed.

(** ** The constructors *)
Section Constructors.

Lemma append_zeros (xs : list Z) (acc : list Z) :
  foldl (λ col _, col ++ [0]) acc xs = acc ++ replicate (length xs) 0.
Proof.
  revert acc. induction xs as [|x xs IH]; intros acc; simpl.
  - by rewrite app_nil_r.
  - rewrite IH. by rewrite <- app_assoc.
Qed.

Lemma append_rows (row : list Z) (xs : list Z) (acc : list (list Z)) :
  foldl (λ tbl _, tbl ++ [row]) acc xs = acc ++ replicate (length xs) row.
Proof.
  revert acc. induction xs as [|x xs IH]; intros acc; simpl.
  - by rewrite app_nil_r.
  - rewrite IH. by rewrite <- app_assoc.
Qed.

Lemma _init_table_table (self : MinCut.t) (num_of_rows num_of_cols : Z) :
  MinCut.table (MinCut._init_table self num_of_rows num_of_cols) =
    MinCut.table self ++
    replicate (Z.to_nat num_of_rows) (replicate (Z.to_nat num_of_cols) 0).
Proof.
  unfold MinCut._init_table. simpl.
  rewrite append_zeros, append_rows. unfold range.
  by rewrite !length_seqZ.
Qed.

Lemma MinCut_init (ets nb k cs : Z) :
  MinCut.__init__ ets nb k cs = Ok (MinCut_fresh ets nb k cs).
Proof.
  unfold MinCut.__init__, MinCut_fresh. simpl. f_equal.
  pose proof (_init_table_table
    {| MinCut.base :=
         {| DataStructure.num_of_hash_functions := k;
            DataStructure.cache_size := cs;
            DataStructure.cache :=
              {| LRUCache.cache := []; LRUCache.capacity := cs |};
            DataStructure.cache_counter := 0 |};
       MinCut.num_of_buckets := nb;
       MinCut.num_of_elements_to_save := ets;
       MinCut.table := [];
       MinCut.elements := ∅ |} k nb) as Htable.
  simpl in Htable. unfold MinCut._init_table, MinCut.with_table in *. simpl in *.
  by rewrite Htable.
Qed.

Lemma SCBloomFilter_init (k cs bf mx mem : Z) :
  SCBloomFilter.__init__ k cs bf mx mem = Ok (SCBloomFilter_fresh k cs bf mx mem).
Proof. reflexivity. Qed.

(** C8, as the code has it.  No constructor looks at its parameters: each
    one returns an instance for every integer capacity, size and count,
    stores them as given, and allocates a table or array that is empty when
    its size is not positive. *)
Theorem constructors_accept_every_configuration :
  (∀ capacity,
     LRUCache.__init__ capacity =
       Ok {| LRUCache.cache := []; LRUCache.capacity := capacity |}) ∧
  (∀ ets nb k cs,
     MinCut.__init__ ets nb k cs = Ok (MinCut_fresh ets nb k cs)) ∧
  (∀ k cs bf mx mem,
     SCBloomFilter.__init__ k cs bf mx mem =
       Ok (SCBloomFilter_fresh k cs bf mx mem)).
Proof.
  split_and!; [done | apply MinCut_init | apply SCBloomFilter_init].
Qed.

(** C8 as stated fails: capacities, sizes and counts that are zero or
    negative are accepted by all three constructors. *)
Lemma constructors_accept_nonpositive :
  LRUCache.__init__ 0 =
    Ok {| LRUCache.cache := []; LRUCache.capacity := 0 |} ∧
  MinCut.__init__ 0 (-1) 0 0 = Ok (MinCut_fresh 0 (-1) 0 0) ∧
  MinCut.table (MinCut_fresh 0 (-1) 0 0) = [] ∧
  SCBloomFilter.__init__ 0 0 (-1) 0 0 = Ok (SCBloomFilter_fresh 0 0 (-1) 0 0) ∧
  SCBloomFilter.bloom_filter (SCBloomFilter_fresh 0 0 (-1) 0 0) = [].
Proof. split_and!; reflexivity. Qed.

End Constructors.

(** ** Indexing inside the bounds *)
Section Indexing.
Context {A : Type} `{!Inhabited A}.

Lemma py_position_in_range (l : list A) (i : Z) :
  0 <= i < Z.of_nat (length l) → py_position l i = Some (Z.to_nat i).
Proof.
  intros Hi. unfold py_position.
  destruct (Z.leb_spec 0 i); [|lia].
  destruct (Z.ltb_spec i (Z.of_nat (length l))); [done|lia].
Qed.

Lemma getitem_in_range (l : list A) (i : Z) :
  0 <= i < Z.of_nat (length l) → getitem l i = Ok (l !!! Z.to_nat i).
Proof.
  intros Hi. unfold getitem. rewrite py_position_in_range by done.
  destruct (l !! Z.to_nat i) as [x|] eqn:Hl.
  - by rewrite (list_lookup_total_correct _ _ _ Hl).
  - apply lookup_ge_None in Hl. lia.
Qed.

Lemma setitem_in_range (l : list A) (i : Z) (x : A) :
  0 <= i < Z.of_nat (length l) → setitem l i x = Ok (<[Z.to_nat i := x]> l).
Proof. intros Hi. unfold setitem. by rewrite py_position_in_range. Qed.

Lemma getitem_out_of_range (l : list A) (i : Z) :
  Z.of_nat (length l) <= i → getitem l i = Raise IndexError.
Proof.
  intros Hi. unfold getitem, py_position.
  destruct (Z.leb_spec 0 i); [|lia].
  destruct (Z.ltb_spec i (Z.of_nat (length l))); [lia|]. simpl.
  destruct (Z.ltb_spec i 0); [lia|]. by rewrite andb_false_r.
Qed.

End Indexing.

(** ** The counter table of the Min-Cut sketch *)
Section Table.

Lemma inc_body_fit (done rest : list (list Z)) (row : list Z) (cell : Z) :
  0 <= cell < Z.of_nat (length row) →
  inc_body (Z.of_nat (length done), cell) (done ++ row :: rest)
  = Ok (done ++ bump row cell :: rest).
Proof.
  intros Hcell. unfold inc_body.
  rewrite getitem_in_range by (rewrite length_app; simpl; lia).
  rewrite Nat2Z.id, list_lookup_total_middle by done. cbn [mbind result_bind].
  rewrite getitem_in_range by done. cbn [mbind result_bind].
  rewrite setitem_in_range by done. cbn [mbind result_bind].
  rewrite setitem_in_range by (rewrite length_app; simpl; lia).
  rewrite Nat2Z.id.
  replace (length done) with (length done + 0)%nat at 1 by lia.
  by rewrite insert_app_r.
Qed.

Lemma inc_loop (rest : list (list Z)) (cells : list Z) :
  cells_fit rest cells →
  ∀ done,
    for_in (zip (seqZ (Z.of_nat (length done)) (Z.of_nat (length cells))) cells)
           inc_body (done ++ rest)
    = Ok (done ++ zip_with bump rest cells).
Proof.
  induction 1 as [|row cell rest cells Hcell Hfit IH]; intros done.
  - done.
  - simpl length. rewrite seqZ_cons by lia. cbn [zip zip_with for_in].
    rewrite inc_body_fit by done. cbn [mbind result_bind].
    specialize (IH (done ++ [bump row cell])).
    rewrite length_app in IH. simpl in IH.
    replace (Z.succ (Z.of_nat (length done)))
      with (Z.of_nat (length done + 1)) by lia.
    replace (Z.pred (Z.of_nat (S (length cells))))
      with (Z.of_nat (length cells)) by lia.
    rewrite <- !app_assoc in IH. simpl in IH. exact IH.
Qed.

Lemma _inc_fit (self : MinCut.t) (cells : list Z) :
  cells_fit (MinCut.table self) cells →
  MinCut._inc self cells =
    Ok (MinCut.with_table self (zip_with bump (MinCut.table self) cells)).
Proof.
  intros Hfit. unfold MinCut._inc, enumerate.
  pose proof (inc_loop _ _ Hfit []) as Hloop.
  cbn [length app] in Hloop. change (Z.of_nat 0) with 0 in Hloop.
  unfold inc_body in Hloop. by rewrite Hloop.
Qed.

Lemma count_loop (rest : list (list Z)) (cells : list Z) :
  cells_fit rest cells →
  ∀ done min_val,
    for_in (zip (seqZ (Z.of_nat (length done)) (Z.of_nat (length cells))) cells)
           (λ '(i, cell) min_val,
              row ← getitem (done ++ rest) i;
              val ← getitem row cell;
              Ok (if val <? min_val then val else min_val))
           min_val
    = Ok (foldl lower min_val (reads rest cells)).
Proof.
  induction 1 as [|row cell rest cells Hcell Hfit IH]; intros done min_val.
  - done.
  - simpl length. rewrite seqZ_cons by lia. cbn [zip zip_with for_in].
    rewrite getitem_in_range by (rewrite length_app; simpl; lia).
    rewrite Nat2Z.id, list_lookup_total_middle by done. cbn [mbind result_bind].
    rewrite getitem_in_range by done. cbn [mbind result_bind].
    specialize (IH (done ++ [row]) (lower min_val (row !!! Z.to_nat cell))).
    rewrite length_app in IH. simpl in IH.
    replace (Z.succ (Z.of_nat (length done)))
      with (Z.of_nat (length done + 1)) by lia.
    replace (Z.pred (Z.of_nat (S (length cells))))
      with (Z.of_nat (length cells)) by lia.
    rewrite <- !app_assoc in IH. simpl in IH. exact IH.
Qed.

Lemma _count_fit (self : MinCut.t) (cells : list Z) :
  cells_fit (MinCut.table self) cells →
  MinCut._count self cells =
    Ok (foldl lower sys_maxsize (reads (MinCut.table self) cells)).
Proof.
  intros Hfit. unfold MinCut._count, enumerate.
  pose proof (count_loop _ _ Hfit [] sys_maxsize) as Hloop.
  cbn [length app] in Hloop. change (Z.of_nat 0) with 0 in Hloop.
  by rewrite Hloop.
Qed.

End Table.

(** ** The Min-Cut sketch *)
Section MinCutFacts.
Context {H : Mmh3}.
Variables (ets nb k cs : Z).
Hypothesis nb_pos : 0 < nb.

Local Abbreviation table_shape := (table_shape nb k).
Local Abbreviation hits := (hits nb).
Local Abbreviation tally := (tally nb).
Local Abbreviation sketch_of := (sketch_of ets nb k).
Local Abbreviation sketch_k := (sketch_k ets nb k).
Local Abbreviation sketch_ets := (sketch_ets ets nb k).

Lemma cells_fit_indices (tbl : list (list Z)) (x : string) :
  table_shape tbl → cells_fit tbl (indices k x nb).
Proof.
  intros [Hlen Hrows]. apply Forall2_same_length_lookup. split.
  - by rewrite indices_length.
  - intros i row cell Hrow Hcell.
    assert (Hi : (i < Z.to_nat k)%nat).
    { rewrite <- Hlen. by eapply lookup_lt_Some. }
    rewrite indices_lookup in Hcell by done. injection Hcell as <-.
    rewrite Forall_lookup in Hrows. rewrite (Hrows i row Hrow).
    pose proof (Z.mod_pos_bound (mmh3_hash x (Z.of_nat i)) nb nb_pos). lia.
Qed.

Lemma bump_shape (tbl : list (list Z)) (x : string) :
  table_shape tbl → table_shape (zip_with bump tbl (indices k x nb)).
Proof.
  intros [Hlen Hrows]. split.
  - rewrite length_zip_with, indices_length. lia.
  - apply Forall_lookup. intros i row' Hrow'.
    apply lookup_zip_with_Some in Hrow' as (row & cell & -> & Hrow & _).
    unfold bump. rewrite length_insert.
    rewrite Forall_lookup in Hrows. by eapply Hrows.
Qed.

Lemma counter_bump (tbl : list (list Z)) (x : string) (i j : nat) :
  table_shape tbl → (i < Z.to_nat k)%nat → (j < Z.to_nat nb)%nat →
  counter (zip_with bump tbl (indices k x nb)) i j =
    counter tbl i j + (if decide (hits i j x) then 1 else 0).
Proof.
  intros [Hlen Hrows] Hi Hj. unfold counter.
  destruct (lookup_lt_is_Some_2 tbl i) as [row Hrow]; [lia|].
  assert (Hzip : zip_with bump tbl (indices k x nb) !! i =
                 Some (bump row (mmh3_hash x (Z.of_nat i) `mod` nb))).
  { rewrite lookup_zip_with, Hrow, indices_lookup by done. done. }
  rewrite (list_lookup_total_correct _ _ _ Hzip).
  rewrite (list_lookup_total_correct _ _ _ Hrow).
  rewrite Forall_lookup in Hrows. pose proof (Hrows i row Hrow) as Hlr.
  unfold bump, hits. rewrite list_lookup_total_insert.
  pose proof (Z.mod_pos_bound (mmh3_hash x (Z.of_nat i)) nb nb_pos).
  repeat case_decide; subst; lia.
Qed.

Lemma fresh_sketch : sketch_of [] (MinCut_fresh ets nb k cs).
Proof.
  split; try done.
  - split; simpl; [by rewrite length_replicate|].
    apply Forall_replicate. by rewrite length_replicate.
  - intros i j Hi Hj. unfold counter, tally. simpl.
    by rewrite !lookup_total_replicate_2.
Qed.

Lemma add_new_sketch (ks : list string) (s : MinCut.t) (x : string) :
  sketch_of ks s →
  ∃ s', MinCut.add_new s x = Ok s' ∧ sketch_of (ks ++ [x]) s'.
Proof.
  intros [Hk Hnb Hets Hshape Helts Hcount]. unfold MinCut.add_new.
  destruct (put_total (DataStructure.cache (MinCut.base s)) x) as (c & -> & _).
  cbn [mbind result_bind]. cbn [MinCut.base MinCut.num_of_buckets].
  rewrite _get_hash_values_ok by lia. cbn [mbind result_bind].
  cbn [DataStructure.with_cache DataStructure.num_of_hash_functions].
  rewrite Hk, Hnb.
  rewrite _inc_fit by (by apply cells_fit_indices).
  eexists. split; [done|]. split; simpl; try done.
  - by apply bump_shape.
  - rewrite Helts, list_to_set_app_L. simpl.
    by rewrite (right_id_L ∅ (∪)), (comm_L (∪)).
  - intros i j Hi Hj. rewrite counter_bump, Hcount by done.
    unfold tally. rewrite filter_app, length_app.
    destruct (decide (hits i j x)) as [Hx|Hx].
    + rewrite filter_cons_True by done. simpl. lia.
    + rewrite filter_cons_False by done. simpl. lia.
Qed.

Lemma add_all_sketch (xs ks : list string) (s : MinCut.t) :
  sketch_of ks s →
  ∃ s', MinCut.add_all s xs = Ok s' ∧ sketch_of (ks ++ xs) s'.
Proof.
  revert ks s. induction xs as [|x xs IH]; intros ks s Hs.
  - exists s. by rewrite app_nil_r.
  - destruct (add_new_sketch ks s x Hs) as (s1 & Hadd & Hs1).
    destruct (IH _ _ Hs1) as (s' & Hrun & Hs').
    exists s'. unfold MinCut.add_all in *. simpl. rewrite Hadd. simpl.
    split; [done|]. by rewrite <- app_assoc in Hs'.
Qed.

Lemma run_sketch (keys : list string) :
  ∃ s, (s0 ← MinCut.__init__ ets nb k cs; MinCut.add_all s0 keys) = Ok s ∧
       sketch_of keys s.
Proof.
  rewrite MinCut_init. cbn [mbind result_bind].
  apply (add_all_sketch keys [] _ fresh_sketch).
Qed.

(** The running minimum, from [min_val] on. *)
Lemma foldl_lower_spec (l : list Z) (min_val : Z) :
  foldl lower min_val l <= min_val ∧
  Forall (λ v, foldl lower min_val l <= v) l ∧
  (foldl lower min_val l = min_val ∨ foldl lower min_val l ∈ l).
Proof.
  revert min_val. induction l as [|v l IH]; intros min_val; simpl.
  - split_and!; [lia | constructor | by left].
  - destruct (IH (lower min_val v)) as (Hle & Hall & Hin).
    assert (Hlow : lower min_val v <= min_val ∧ lower min_val v <= v ∧
                   (lower min_val v = min_val ∨ lower min_val v = v)).
    { unfold lower. destruct (Z.ltb_spec v min_val); lia. }
    split_and!; [lia | constructor; [lia | done] |].
    destruct Hin as [Heq|Hin]; [|right; by right].
    destruct Hlow as (_ & _ & [Hm|Hv]);
      [left; congruence | right; rewrite Heq, Hv; left].
Qed.

Lemma foldl_lower_ge (l : list Z) (min_val c : Z) :
  c <= min_val → Forall (λ v, c <= v) l → c <= foldl lower min_val l.
Proof.
  intros Hm Hl. destruct (foldl_lower_spec l min_val) as (_ & _ & [->|Hin]);
    [done|]. rewrite Forall_forall in Hl. by apply Hl.
Qed.

Lemma reads_key_counters (ks : list string) (s : MinCut.t) (key : string) :
  sketch_of ks s →
  reads (MinCut.table s) (indices k key nb) = key_counters s key.
Proof.
  intros [Hk Hnb _ [Hlen Hrows] _ _]. unfold reads, key_counters.
  rewrite Hk, Hnb. apply list_eq. intros i.
  rewrite lookup_zip_with, list_lookup_fmap. unfold range.
  destruct (decide (i < Z.to_nat k)%nat) as [Hi|Hi].
  - destruct (lookup_lt_is_Some_2 (MinCut.table s) i) as [row Hrow]; [lia|].
    rewrite Hrow, indices_lookup, lookup_seqZ_lt by lia. simpl.
    rewrite Z.add_0_l, Nat2Z.id. unfold counter.
    by rewrite (list_lookup_total_correct _ _ _ Hrow).
  - rewrite lookup_seqZ_ge by lia.
    rewrite (lookup_ge_None_2 (MinCut.table s)) by lia. done.
Qed.

Lemma estimate_of_sketch (ks : list string) (s : MinCut.t) (key : string) :
  sketch_of ks s →
  DataStructure._get_hash_values (MinCut.base s) key (MinCut.num_of_buckets s)
    = Ok (indices k key nb) ∧
  MinCut._count s (indices k key nb)
    = Ok (foldl lower sys_maxsize (key_counters s key)).
Proof.
  intros Hs. pose proof Hs as [Hk Hnb _ Hshape _ _]. split.
  - rewrite Hnb, _get_hash_values_ok by lia. by rewrite Hk.
  - rewrite _count_fit by (by apply cells_fit_indices).
    by rewrite (reads_key_counters ks).
Qed.

Lemma filter_length_mono (P Q : string → Prop)
    `{!∀ x, Decision (P x)} `{!∀ x, Decision (Q x)} (l : list string) :
  (∀ x, P x → Q x) → (length (filter P l) ≤ length (filter Q l))%nat.
Proof.
  intros HPQ. induction l as [|x l IH]; [done|].
  destruct (decide (P x)) as [HP|HP].
  - rewrite (filter_cons_True P) by done.
    rewrite (filter_cons_True Q) by auto. simpl. lia.
  - rewrite (filter_cons_False P) by done.
    destruct (decide (Q x)).
    + rewrite (filter_cons_True Q) by done. simpl. lia.
    + by rewrite (filter_cons_False Q).
Qed.

(** Every counter of a key counts at least the insertions of that key, and
    no more than all insertions. *)
Lemma key_counters_bounds (ks : list string) (s : MinCut.t) (x : string) :
  sketch_of ks s →
  Forall (λ v, Z.of_nat (length (filter (λ key, key = x) ks)) <= v
               <= Z.of_nat (length ks))
         (key_counters s x).
Proof.
  intros [Hk Hnb _ _ _ Hcount]. unfold key_counters. rewrite Hk, Hnb.
  apply Forall_fmap, Forall_forall. intros i Hi. simpl.
  unfold range in Hi. apply elem_of_seqZ in Hi.
  pose proof (Z.mod_pos_bound (mmh3_hash x i) nb nb_pos).
  rewrite Hcount by lia. unfold tally. split.
  - apply inj_le, filter_length_mono. intros y ->. unfold hits.
    by rewrite Z2Nat.id by lia.
  - apply inj_le, length_filter.
Qed.

Lemma should_exists_of_sketch (ks : list string) (s : MinCut.t) (key : string) :
  sketch_of ks s → ets ≠ 0 →
  MinCut.should_exists s key =
    Ok (Qle_bool (inject_Z (Z.of_nat (size (MinCut.elements s))) / inject_Z ets)
                 (inject_Z (foldl lower sys_maxsize (key_counters s key)))).
Proof.
  intros Hs Hets. destruct (estimate_of_sketch ks s key Hs) as [Hhash Hcount].
  unfold MinCut.should_exists, truediv. rewrite (sketch_ets ks s Hs).
  destruct (Z.eqb_spec ets 0); [done|]. cbn [mbind result_bind].
  rewrite Hhash. cbn [mbind result_bind]. by rewrite Hcount.
Qed.

(** C3.  After any run of [add_new] calls on a fresh sketch with
    [num_of_buckets > 0], the value [_count] returns for a key, which is the
    one [should_exists] compares with the load ratio, is at least the number
    of times that key was inserted.
    The run is no longer than [sys.maxsize], the value [_count] starts its
    minimum from. *)
Theorem no_underestimate (keys : list string) (x : string) :
  Z.of_nat (length keys) <= sys_maxsize →
  ∃ s hashed estimate,
    (s0 ← MinCut.__init__ ets nb k cs; MinCut.add_all s0 keys) = Ok s ∧
    DataStructure._get_hash_values (MinCut.base s) x (MinCut.num_of_buckets s)
      = Ok hashed ∧
    MinCut._count s hashed = Ok estimate ∧
    Z.of_nat (length (filter (λ key, key = x) keys)) <= estimate ∧
    (∀ m, truediv (Z.of_nat (size (MinCut.elements s)))
                  (MinCut.num_of_elements_to_save s) = Ok m →
          MinCut.should_exists s x = Ok (Qle_bool m (inject_Z estimate))).
Proof.
  intros Hlen. destruct (run_sketch keys) as (s & Hrun & Hs).
  destruct (estimate_of_sketch keys s x Hs) as [Hhash Hcount].
  exists s, (indices k x nb), (foldl lower sys_maxsize (key_counters s x)).
  split_and!; [done | done | done | |].
  - pose proof (key_counters_bounds keys s x Hs) as Hbounds.
    apply foldl_lower_ge.
    + pose proof (length_filter (λ key, key = x) keys). lia.
    + eapply Forall_impl; [exact Hbounds|]. simpl. intros v Hv. lia.
  - intros m Hm. unfold MinCut.should_exists. rewrite Hm. cbn [mbind result_bind].
    rewrite Hhash. cbn [mbind result_bind]. by rewrite Hcount.
Qed.


(** C10.  On a sketch that was just built, with positive parameters, the
    set of keys is empty and the load ratio is [0]; every counter is [0], so
    [_count] returns [0]; and [should_exists] answers [True] for every
    key. *)
Theorem fresh_should_exists (key : string) :
  0 < k → 0 < ets →
  ∃ s hashed,
    MinCut.__init__ ets nb k cs = Ok s ∧
    MinCut.elements s = ∅ ∧
    (∃ m, truediv (Z.of_nat (size (MinCut.elements s)))
                  (MinCut.num_of_elements_to_save s) = Ok m ∧ (m == 0)%Q) ∧
    Forall (Forall (λ c, c = 0)) (MinCut.table s) ∧
    DataStructure._get_hash_values (MinCut.base s) key (MinCut.num_of_buckets s)
      = Ok hashed ∧
    MinCut._count s hashed = Ok 0 ∧
    MinCut.should_exists s key = Ok true.
Proof.
  intros Hk Hets. pose proof fresh_sketch as Hs.
  destruct (estimate_of_sketch [] _ key Hs) as [Hhash Hcount].
  assert (Hzero : foldl lower sys_maxsize
                    (key_counters (MinCut_fresh ets nb k cs) key) = 0).
  { pose proof (key_counters_bounds [] _ key Hs) as Hbounds. simpl in Hbounds.
    destruct (foldl_lower_spec (key_counters (MinCut_fresh ets nb k cs) key)
                sys_maxsize) as (_ & Hall & Hin).
    assert (Hne : ∃ v, v ∈ key_counters (MinCut_fresh ets nb k cs) key).
    { unfold key_counters, range. simpl. rewrite seqZ_cons by done.
      eexists. left. }
    destruct Hne as [v Hv]. rewrite Forall_forall in Hbounds, Hall.
    pose proof (Hbounds v Hv). pose proof (Hall v Hv).
    destruct Hin as [Heq|Hin]; [unfold sys_maxsize in *; lia|].
    pose proof (Hbounds _ Hin). lia. }
  exists (MinCut_fresh ets nb k cs), (indices k key nb).
  split_and!; [apply MinCut_init | done | | | done | by rewrite Hcount, Hzero |].
  - change (MinCut.elements (MinCut_fresh ets nb k cs)) with (∅ : gset string).
    rewrite size_empty. unfold truediv. simpl.
    destruct (Z.eqb_spec ets 0); [lia|]. eexists. split; [done|].
    unfold Qdiv. apply Qmult_0_l.
  - simpl. apply Forall_replicate, Forall_replicate. done.
  - rewrite (should_exists_of_sketch [] _ key Hs) by lia.
    change (MinCut.elements (MinCut_fresh ets nb k cs)) with (∅ : gset string).
    by rewrite Hzero, size_empty.
Qed.

End MinCutFacts.

Example scenario_run :
  (s ← MinCut.__init__ 5 10 2 3;
   s ← @MinCut.add_all Pymmh3.murmur3 s scenario_keys;
   heavy ← @MinCut.should_exists Pymmh3.murmur3 s "10.0.0.1";
   unseen ← @MinCut.should_exists Pymmh3.murmur3 s "10.0.0.9";
   Ok (MinCut.table s, heavy, unseen))
  = Ok ([[1; 1; 0; 1; 0; 1; 0; 0; 0; 5]; [5; 0; 2; 1; 0; 0; 0; 0; 1; 0]],
        true, false).
Proof. vm_compute. reflexivity. Qed.

Lemma no_underestimate_example :
  (0 < 10 ∧ Z.of_nat (length scenario_keys) <= sys_maxsize) ∧
  ∃ s hashed estimate,
    (s0 ← MinCut.__init__ 5 10 2 3;
     @MinCut.add_all Pymmh3.murmur3 s0 scenario_keys) = Ok s ∧
    @DataStructure._get_hash_values Pymmh3.murmur3 (MinCut.base s) "10.0.0.1"
      (MinCut.num_of_buckets s) = Ok hashed ∧
    MinCut._count s hashed = Ok estimate ∧
    5 <= estimate.
Proof.
  split; [split; [lia | by_evaluation]|].
  destruct (@no_underestimate Pymmh3.murmur3 5 10 2 3 ltac:(lia)
              scenario_keys "10.0.0.1" ltac:(by_evaluation))
    as (s & hashed & estimate & Hrun & Hhash & Hcount & Hle & _).
  exists s, hashed, estimate. split_and!; [exact Hrun | exact Hhash | exact Hcount |].
  exact Hle.
Defined.


Lemma fresh_should_exists_example :
  (0 < 10 ∧ 0 < 2 ∧ 0 < 5) ∧
  ∃ s hashed,
    MinCut.__init__ 5 10 2 3 = Ok s ∧
    MinCut.elements s = ∅ ∧
    (∃ m, truediv (Z.of_nat (size (MinCut.elements s)))
                  (MinCut.num_of_elements_to_save s) = Ok m ∧ (m == 0)%Q) ∧
    Forall (Forall (λ c, c = 0)) (MinCut.table s) ∧
    @DataStructure._get_hash_values Pymmh3.murmur3 (MinCut.base s) "10.0.0.1"
      (MinCut.num_of_buckets s) = Ok hashed ∧
    MinCut._count s hashed = Ok 0 ∧
    @MinCut.should_exists Pymmh3.murmur3 s "10.0.0.1" = Ok true.
Proof.
  split; [lia|].
  apply (@fresh_should_exists Pymmh3.murmur3 5 10 2 3); lia.
Defined.

(** ** The admission bound *)
Section Bound.

(** [math.log(2, math.e)] is the natural logarithm of 2. *)
Lemma math_log_2_e : math.log 2 math.e = ln 2.
Proof. unfold math.log, math.e. rewrite ln_exp. field. Qed.

Lemma Q2R_inject_Z (z : Z) : Q2R (inject_Z z) = IZR z.
Proof. unfold Q2R, inject_Z. simpl. field. Qed.

Lemma truediv_real (a b : Z) :
  b ≠ 0 →
  ∃ q, truediv a b = Ok q ∧ Q2R q = (IZR a / IZR b)%R.
Proof.
  intros Hb. unfold truediv. destruct (Z.eqb_spec b 0); [done|].
  eexists. split; [done|].
  rewrite Q2R_div, !Q2R_inject_Z; [done|].
  intros Hq. apply n. unfold Qeq in Hq. simpl in Hq. lia.
Qed.

Lemma _update_bound_admitted (s : SCBloomFilter.t) :
  SCBloomFilter.n s ≠ 0 → SCBloomFilter.max_n s ≠ 0 →
  SCBloomFilter._update_bound s =
    Ok (SCBloomFilter.with_bound s
          (admission_bound (SCBloomFilter.bf_size s) (SCBloomFilter.max_n s))).
Proof.
  intros Hn Hmx. unfold SCBloomFilter._update_bound.
  destruct (Z.eqb_spec (SCBloomFilter.n s) 0); [done|].
  destruct (truediv_real (SCBloomFilter.bf_size s) (SCBloomFilter.max_n s) Hmx)
    as (q & -> & Hq).
  cbn [mbind result_bind]. unfold admission_bound, math.pow.
  by rewrite math_log_2_e, Hq.
Qed.



End Bound.

(** ** The selective counting Bloom filter *)
Section FilterFacts.
Context {H : Mmh3}.
Variables (k cs bf mx mem : Z).
Hypothesis bf_pos : 0 < bf.
Hypothesis mx_nonneg : 0 <= mx.
Hypothesis mem_nonzero : mem ≠ 0.

Import SCBloomFilter.
Local Abbreviation filter_of := (filter_of k cs bf mx mem).
Local Abbreviation filter_bound := (filter_bound k cs bf mx mem).
Local Abbreviation filter_n := (filter_n k cs bf mx mem).
Local Abbreviation filter_mx := (filter_mx k cs bf mx mem).

Lemma fresh_filter : filter_of (SCBloomFilter_fresh k cs bf mx mem).
Proof.
  split; simpl; try done.
  - by rewrite length_replicate.
  - intros Hcs. split; simpl; [apply NoDup_nil_2 | lia].
  - by apply Forall_replicate.
  - intros _. by apply Forall_replicate.
Qed.

Lemma bloom_loop (hashed bfl : list Z) :
  Forall (λ v, 0 <= v < Z.of_nat (length bfl)) hashed →
  Forall (λ c, 0 <= c) bfl →
  ∃ bfl',
    for_in hashed (λ value b, c ← getitem b value; setitem b value (c + 1)) bfl
      = Ok bfl' ∧
    length bfl' = length bfl ∧ Forall (λ c, 0 <= c) bfl'.
Proof.
  intros Hfit Hnn.
  apply (for_in_invariant
           (λ b, length b = length bfl ∧ Forall (λ c, 0 <= c) b)); [done|].
  intros v b Hv [Hlen Hb]. rewrite Forall_forall in Hfit.
  pose proof (Hfit v Hv) as Hrange. rewrite <- Hlen in Hrange.
  rewrite getitem_in_range by done. cbn [mbind result_bind].
  rewrite setitem_in_range by done. eexists. split; [done|].
  rewrite length_insert. split; [done|].
  apply Forall_insert; [done|].
  assert (Hc : 0 <= b !!! Z.to_nat v).
  { rewrite Forall_forall in Hb. apply Hb, list_elem_of_lookup_total_2. lia. }
  lia.
Qed.

Lemma _add_element_filter (s : t) (x : string) :
  bf_size s = bf → length (bloom_filter s) = Z.to_nat bf →
  Forall (λ c, 0 <= c) (bloom_filter s) →
  ∃ bfl, _add_element_to_bloom_filter s x = Ok (with_bloom_filter s bfl) ∧
         length bfl = Z.to_nat bf ∧ Forall (λ c, 0 <= c) bfl.
Proof.
  intros Hbf Hlen Hnn. unfold _add_element_to_bloom_filter.
  rewrite Hbf, _get_hash_values_ok by lia. cbn [mbind result_bind].
  destruct (bloom_loop
              (indices (DataStructure.num_of_hash_functions (base s)) x bf)
              (bloom_filter s)) as (bfl & -> & Hl & Hb); [|done|].
  - rewrite Hlen. eapply Forall_impl; [by apply indices_in_range|].
    simpl. intros v Hv. lia.
  - exists bfl. split; [done|]. split; [congruence|done].
Qed.

(** One [add_new]: the invariant goes through; a full filter only records
    the key; a filter that has admitted a key keeps its bound. *)
Lemma add_new_filter (s : t) (x : string) :
  filter_of s →
  ∃ s', add_new s x = Ok s' ∧ filter_of s' ∧
        (n s = mx →
           ∃ c, LRUCache.put (DataStructure.cache (base s)) x = Ok c ∧
                s' = observed s c x) ∧
        (0 < n s → bound s' = bound s) ∧
        n s <= n s'.
Proof.
  intros [Hk Hbf Hmx Hmem Hlen Hn Hbound Hcap Hlru Hnn Hun].
  unfold add_new.
  destruct (put_total (DataStructure.cache (base s)) x) as (c & Hput & Hc).
  rewrite Hput. cbn [mbind result_bind].
  assert (Hlru' : 0 <= cs → lru_inv c).
  { intros Hcs. destruct (put_inv (DataStructure.cache (base s)) x)
      as (c' & Hput' & _ & Hinv); [lia | by apply Hlru |]. congruence. }
  fold (observed s c x).
  assert (Hself : filter_of (observed s c x)).
  { split; simpl; try done. congruence. }
  unfold _satisfy_paradox, _get_apriori_prob.
  change (memory_size (observed s c x)) with (memory_size s). rewrite Hmem.
  destruct (truediv_real
              (LRUCache.__len__ (DataStructure.cache (base (observed s c x))))
              mem mem_nonzero) as (p & -> & _).
  cbn [mbind result_bind].
  destruct (Rlt_dec (Q2R p) (bound (observed s c x))); cbn [negb].
  { exists (observed s c x). split_and!; eauto. simpl. lia. }
  change (max_n (observed s c x) =? n (observed s c x))
    with (max_n s =? n s).
  rewrite Hmx. destruct (Z.eqb_spec mx (n s)) as [Heq|Hne].
  { exists (observed s c x). split_and!; eauto. simpl. lia. }
  destruct (_add_element_filter (observed s c x) x)
    as (bfl & -> & Hl & Hb); [done..|].
  cbn [mbind result_bind].
  rewrite _update_bound_admitted by (simpl; lia).
  eexists. split; [done|].
  split; [|split; [lia|split]].
  - split; simpl; try done; try lia.
    destruct (Z.eqb_spec (n s + 1) 0); [lia|]. by rewrite Hbf, Hmx.
  - intros Hpos. simpl. rewrite Hbound, Hbf, Hmx.
    by destruct (Z.eqb_spec (n s) 0); [lia|].
  - simpl. lia.
Qed.

Lemma add_all_filter (keys : list string) (s : t) :
  filter_of s → ∃ s', add_all s keys = Ok s' ∧ filter_of s'.
Proof.
  intros Hs. unfold add_all. apply (for_in_invariant filter_of); [done|].
  intros x s1 _ Hs1. destruct (add_new_filter s1 x Hs1) as (s' & ? & ? & _).
  eauto.
Qed.



Lemma run_filter (keys : list string) :
  ∃ s, (s0 ← __init__ k cs bf mx mem; add_all s0 keys) = Ok s ∧ filter_of s.
Proof.
  rewrite SCBloomFilter_init. cbn [mbind result_bind].
  apply add_all_filter, fresh_filter.
Qed.



End FilterFacts.

(** ** Queries of the Bloom filter *)
Section BloomQuery.
Context {H : Mmh3}.
Import SCBloomFilter.

(** The loop of [_check_bloom_filter] stops at the first counter that is
    [0]. *)
Lemma check_loop_zero (bfl cells : list Z) (mul_res : Z) :
  Forall (λ v, 0 <= v < Z.of_nat (length bfl)) cells →
  (∃ v, v ∈ cells ∧ bfl !!! Z.to_nat v = 0) →
  _check_loop bfl cells mul_res = Ok 0.
Proof.
  intros Hfit. revert mul_res.
  induction Hfit as [|v cells Hv Hfit IH]; intros mul_res (z & Hin & Hz).
  - by apply elem_of_nil in Hin.
  - simpl. rewrite getitem_in_range by done. cbn [mbind result_bind].
    destruct (Z.eqb_spec (bfl !!! Z.to_nat v) 0) as [|Hnz]; [done|].
    apply IH. exists z. split; [|done].
    apply elem_of_cons in Hin as [->|Hin]; [done|done].
Qed.

(** On counters that are not negative the loop returns their product, which
    is positive unless one of them is [0]. *)
Lemma check_loop_total (bfl cells : list Z) (mul_res : Z) :
  Forall (λ v, 0 <= v < Z.of_nat (length bfl)) cells →
  Forall (λ c, 0 <= c) bfl → 0 < mul_res →
  ∃ r, _check_loop bfl cells mul_res = Ok r ∧ 0 <= r ∧
       (r ≠ 0 → Forall (λ v, bfl !!! Z.to_nat v ≠ 0) cells).
Proof.
  intros Hfit Hnn. revert mul_res.
  induction Hfit as [|v cells Hv Hfit IH]; intros mul_res Hm.
  - exists mul_res. split_and!; [done | lia | by constructor].
  - simpl. rewrite getitem_in_range by done. cbn [mbind result_bind].
    assert (Hc : 0 <= bfl !!! Z.to_nat v).
    { rewrite Forall_forall in Hnn. apply Hnn, list_elem_of_lookup_total_2. lia. }
    destruct (Z.eqb_spec (bfl !!! Z.to_nat v) 0) as [Hz|Hnz].
    + exists 0. split_and!; [done | lia | done].
    + destruct (IH (mul_res * bfl !!! Z.to_nat v)) as (r & Hr & Hr0 & Hall);
        [nia|].
      exists r. split_and!; [done | done |]. intros Hne. constructor; auto.
Qed.

(** C5.  In a filter whose counter array has [bf_size > 0] cells, if the
    counter at one of the key's hashed positions is [0] then
    [should_exists] returns [False]. *)
Theorem bloom_zero_guarantee (s : t) (key : string) (i : Z) :
  0 < bf_size s →
  length (bloom_filter s) = Z.to_nat (bf_size s) →
  0 <= i < DataStructure.num_of_hash_functions (base s) →
  getitem (bloom_filter s) (mmh3_hash key i `mod` bf_size s) = Ok 0 →
  should_exists s key = Ok false.
Proof.
  intros Hbf Hlen Hi Hzero. unfold should_exists, _check_bloom_filter.
  rewrite _get_hash_values_ok by lia. cbn [mbind result_bind].
  rewrite check_loop_zero; [done| |].
  - rewrite Hlen. eapply Forall_impl; [by apply indices_in_range|].
    simpl. intros v Hv. lia.
  - exists (mmh3_hash key i `mod` bf_size s). split.
    + unfold indices, range. apply list_elem_of_fmap. exists i. split; [done|].
      apply elem_of_seqZ. lia.
    + pose proof (Z.mod_pos_bound (mmh3_hash key i) (bf_size s) Hbf).
      rewrite getitem_in_range in Hzero by lia. by injection Hzero.
Qed.

End BloomQuery.

(** A filter that admitted [10.0.0.1], at positions 3 and 2, queried for
    [10.0.0.6], whose positions are 2 and 0. *)
Lemma bloom_zero_guarantee_example :
  let s := {| SCBloomFilter.base :=
                {| DataStructure.num_of_hash_functions := 2;
                   DataStructure.cache_size := 3;
                   DataStructure.cache :=
                     {| LRUCache.cache := ["10.0.0.1"]; LRUCache.capacity := 3 |};
                   DataStructure.cache_counter := 0 |};
              SCBloomFilter.n := 1; SCBloomFilter.max_n := 1;
              SCBloomFilter.bound := admission_bound 4 1;
              SCBloomFilter.bf_size := 4;
              SCBloomFilter.bloom_filter := [0; 0; 1; 1];
              SCBloomFilter.memory_size := 1;
              SCBloomFilter.elements := {[ "10.0.0.1" ]} |} in
  (0 < SCBloomFilter.bf_size s ∧
   length (SCBloomFilter.bloom_filter s) = Z.to_nat (SCBloomFilter.bf_size s) ∧
   0 <= 1 < DataStructure.num_of_hash_functions (SCBloomFilter.base s) ∧
   getitem (SCBloomFilter.bloom_filter s)
     (Pymmh3.hash "10.0.0.6" 1 `mod` SCBloomFilter.bf_size s) = Ok 0) ∧
  @SCBloomFilter.should_exists Pymmh3.murmur3 s "10.0.0.6" = Ok false.
Proof.
  intros s.
  assert (Hhyp : 0 < SCBloomFilter.bf_size s ∧
   length (SCBloomFilter.bloom_filter s) = Z.to_nat (SCBloomFilter.bf_size s) ∧
   0 <= 1 < DataStructure.num_of_hash_functions (SCBloomFilter.base s) ∧
   getitem (SCBloomFilter.bloom_filter s)
     (Pymmh3.hash "10.0.0.6" 1 `mod` SCBloomFilter.bf_size s) = Ok 0).
  { simpl. split_and!; [lia | reflexivity | lia | lia | reflexivity]. }
  split; [exact Hhyp|].
  destruct Hhyp as (H1 & H2 & H3 & H4).
  exact (@bloom_zero_guarantee Pymmh3.murmur3 s "10.0.0.6" 1 H1 H2 H3 H4).
Defined.

(** ** The posterior of a query *)
Section Posterior.
Context {H : Mmh3}.
Import SCBloomFilter.

Lemma prior_in_unit (s : t) :
  0 < memory_size s →
  LRUCache.__len__ (DataStructure.cache (base s)) <= memory_size s →
  ∃ p, _get_apriori_prob s = Ok p ∧ (0 <= p <= 1)%Q.
Proof.
  intros Hmem Hlen. unfold _get_apriori_prob, truediv.
  destruct (Z.eqb_spec (memory_size s) 0); [lia|].
  eexists. split; [done|].
  assert (Hpos : (0 < inject_Z (memory_size s))%Q).
  { rewrite <- (Zlt_Qlt 0). done. }
  split.
  - apply Qle_shift_div_l; [done|]. rewrite Qmult_0_l.
    rewrite <- (Zle_Qle 0). unfold LRUCache.__len__. lia.
  - apply Qle_shift_div_r; [done|]. rewrite Qmult_1_l.
    by rewrite <- Zle_Qle.
Qed.

(** With a prior in [[0, 1]], a positive Bloom answer and at least one
    admitted key, the denominator is positive; the quotient is [0] at prior
    [0] and [1] at prior [1]. *)
Lemma posterior_defined (s : t) (bf_ans : Z) (p : Q) :
  0 < DataStructure.num_of_hash_functions (base s) →
  0 < bf_size s → 0 < n s → 0 < bf_ans →
  _get_apriori_prob s = Ok p → (0 <= p <= 1)%Q →
  ∃ nom den res,
    posterior_terms s bf_ans = Ok (nom, den) ∧ (0 < den)%Q ∧
    fdiv nom den = Ok res ∧
    (p == 0 → res == 0)%Q ∧ (p == 1 → res == 1)%Q.
Proof.
  intros Hk Hbf Hn Hans Hp [Hp0 Hp1]. unfold posterior_terms.
  rewrite Hp. cbn [mbind result_bind]. unfold math.pow_int.
  destruct (Z.ltb_spec (DataStructure.num_of_hash_functions (base s)) 0);
    [lia|].
  rewrite !andb_false_r. cbn [mbind result_bind].
  set (A := (inject_Z (bf_size s) ^
             DataStructure.num_of_hash_functions (base s))%Q).
  set (B := (inject_Z (n s * DataStructure.num_of_hash_functions (base s)) ^
             DataStructure.num_of_hash_functions (base s))%Q).
  assert (HA : (0 < A)%Q).
  { apply Qpower_0_lt. rewrite <- (Zlt_Qlt 0). done. }
  assert (HB : (0 < B)%Q).
  { apply Qpower_0_lt. rewrite <- (Zlt_Qlt 0). nia. }
  assert (HC : (0 < inject_Z bf_ans)%Q) by (by rewrite <- (Zlt_Qlt 0)).
  assert (HAC : (0 < A * inject_Z bf_ans)%Q) by (by apply Qmult_lt_0_compat).
  set (nom := (A * inject_Z bf_ans * p)%Q).
  set (den := (nom + B * (1 - p))%Q).
  assert (Hnom : (0 <= nom)%Q).
  { apply Qmult_le_0_compat; [by apply Qlt_le_weak | done]. }
  assert (Hrest : (0 <= B * (1 - p))%Q).
  { apply Qmult_le_0_compat; [by apply Qlt_le_weak | lra]. }
  assert (Hden : (0 < den)%Q).
  { unfold den. destruct (Qlt_le_dec p 1) as [Hlt|Hge].
    - assert (0 < B * (1 - p))%Q by (apply Qmult_lt_0_compat; [done | lra]).
      lra.
    - assert (Hone : (p == 1)%Q) by lra.
      assert (0 < nom)%Q.
      { unfold nom. rewrite Hone, Qmult_1_r. done. }
      lra. }
  exists nom, den, (nom / den)%Q. split; [done|]. split; [done|].
  split.
  - unfold fdiv. destruct (Qeq_bool den 0) eqn:Hz; [|done].
    apply Qeq_bool_iff in Hz. lra.
  - split.
    + intros Hzero. unfold Qdiv, nom. rewrite Hzero. ring.
    + intros Hone. unfold den, nom. rewrite Hone. field.
      split; intros Hbad; [rewrite Hbad in HC | rewrite Hbad in HA]; lra.
Qed.

End Posterior.

Section PosteriorOfRun.
Context {H : Mmh3}.
Variables (k cs bf mx mem : Z).
Hypothesis k_pos : 0 < k.
Hypothesis cs_pos : 0 < cs.
Hypothesis bf_pos : 0 < bf.
Hypothesis mx_pos : 0 < mx.
Hypothesis mem_pos : 0 < mem.
Import SCBloomFilter.

Lemma check_of_filter (s : t) (key : string) :
  filter_of k cs bf mx mem s →
  ∃ bf_ans, _check_bloom_filter s key = Ok bf_ans ∧ 0 <= bf_ans ∧
            (bf_ans ≠ 0 → 0 < n s).
Proof.
  intros Hs. pose proof Hs as [Hk Hbf _ _ Hlen Hn _ _ _ Hnn Hun].
  unfold _check_bloom_filter. rewrite Hbf, _get_hash_values_ok, Hk by lia.
  cbn [mbind result_bind].
  destruct (check_loop_total (bloom_filter s) (indices k key bf) 1)
    as (r & Hr & Hr0 & Hall); [|done|lia|].
  { rewrite Hlen. eapply Forall_impl; [by apply indices_in_range|].
    simpl. intros v Hv. lia. }
  exists r. split_and!; [done | done |].
  intros Hne. destruct (Z.eq_dec (n s) 0) as [Hz|]; [|lia].
  specialize (Hall Hne). specialize (Hun Hz).
  unfold indices, range in Hall. rewrite seqZ_cons in Hall by done.
  rewrite fmap_cons in Hall. apply Forall_cons in Hall as [Hfirst _].
  exfalso. apply Hfirst. rewrite Forall_forall in Hun.
  apply Hun, list_elem_of_lookup_total_2.
  pose proof (Z.mod_pos_bound (mmh3_hash key 0) bf bf_pos). lia.
Qed.


End PosteriorOfRun.

(** ** Worked runs of the filter *)
Section Runs.
Context {H : Mmh3}.
Import SCBloomFilter.

(** [add_new] admits the key when the prior is not below the bound and the
    filter is not full. *)
Lemma add_new_admits (s : t) (x : string) (c : LRUCache.t)
    (hashed bfl : list Z) (len : Z) :
  LRUCache.put (DataStructure.cache (base s)) x = Ok c →
  LRUCache.__len__ c = len →
  memory_size s ≠ 0 →
  (bound s <= IZR len / IZR (memory_size s))%R →
  max_n s ≠ n s → n s + 1 ≠ 0 → max_n s ≠ 0 →
  DataStructure._get_hash_values (base s) x (bf_size s) = Ok hashed →
  for_in hashed (λ value b, c ← getitem b value; setitem b value (c + 1))
         (bloom_filter s) = Ok bfl →
  add_new s x = Ok (admitted s c x bfl).
Proof.
  intros Hput Hlen Hmem Hbound Hroom Hn Hmx Hhash Hloop.
  unfold add_new. rewrite Hput. cbn [mbind result_bind].
  fold (observed s c x).
  unfold _satisfy_paradox, _get_apriori_prob.
  change (DataStructure.cache (base (observed s c x))) with c.
  change (memory_size (observed s c x)) with (memory_size s).
  destruct (truediv_real (LRUCache.__len__ c) (memory_size s) Hmem)
    as (p & -> & Hp).
  cbn [mbind result_bind]. rewrite Hp, Hlen.
  change (bound (observed s c x)) with (bound s).
  destruct (Rlt_dec (IZR len / IZR (memory_size s)) (bound s)); [lra|].
  cbn [negb].
  change (max_n (observed s c x) =? n (observed s c x))
    with (max_n s =? n s).
  destruct (Z.eqb_spec (max_n s) (n s)); [done|].
  unfold _add_element_to_bloom_filter.
  change (DataStructure._get_hash_values (base (observed s c x)) x
            (bf_size (observed s c x)))
    with (DataStructure._get_hash_values (base s) x (bf_size s)).
  rewrite Hhash. cbn [mbind result_bind].
  change (bloom_filter (observed s c x)) with (bloom_filter s).
  rewrite Hloop. cbn [mbind result_bind].
  by rewrite _update_bound_admitted.
Qed.

End Runs.

(** The fresh filter's bound is [0], below every prior. *)
Ltac first_admission c hashed bfl len :=
  rewrite (add_new_admits _ _ c hashed bfl len);
  [ cbn [mbind result_bind]
  | reflexivity | reflexivity | simpl; lia
  | simpl; lra
  | simpl; lia | simpl; lia | simpl; lia
  | reflexivity | reflexivity ].



(** ** The bound of the code and the formula with [log2(e)] *)







(** * More properties of the oracle *)
Section OracleMore.
Import LRUCache.

Lemma refreshed_last (d : OrderedDict.t) (key : string) :
  ∃ front, refreshed d key = front ++ [key] ∧ (key ∉ front) ∧
           (∀ k, k ∈ front ↔ (k ∈ d ∧ k ≠ key)).
Proof.
  exists (filter (λ k, k ≠ key) d). split; [done|]. split.
  - intros Hin. apply list_elem_of_filter in Hin as [Hne _]. by apply Hne.
  - intros k. rewrite list_elem_of_filter. tauto.
Qed.

Lemma put_holds_key (self : t) (key : string) :
  0 < capacity self →
  ∃ self', put self key = Ok self' ∧ key ∈ cache self'.
Proof.
  intros Hcap. rewrite put_unfold. cbn zeta.
  destruct (refreshed_last (cache self) key) as (front & -> & _ & _).
  rewrite length_app. simpl.
  assert (Hin : key ∈ front ++ [key]).
  { apply elem_of_app. right. by apply list_elem_of_singleton. }
  destruct (Z.ltb_spec (capacity self) (Z.of_nat (length front + 1))).
  - eexists. split; [done|]. simpl.
    destruct front as [|a front]; [simpl in *; lia|]. simpl.
    apply elem_of_app. right. by apply list_elem_of_singleton.
  - eexists. split; [done|]. done.
Qed.

(** X1.  In an oracle of capacity at least 1, in any state, the key just put
    is held. *)
Theorem put_then_check_if_exists (self : t) (key : string) :
  0 < capacity self →
  ∃ self', put self key = Ok self' ∧ check_if_exists self' key = true.
Proof.
  intros Hcap. destruct (put_holds_key self key Hcap) as (self' & Hput & Hin).
  exists self'. split; [done|]. unfold check_if_exists.
  by apply contains_true in Hin as ->.
Qed.

Lemma put_then_check_if_exists_example :
  0 < 1 ∧
  ∃ self', put {| cache := ["10.0.0.1"]; capacity := 1 |} "10.0.0.2" = Ok self' ∧
           check_if_exists self' "10.0.0.2" = true.
Proof.
  split; [lia|].
  apply (put_then_check_if_exists
           {| cache := ["10.0.0.1"]; capacity := 1 |} "10.0.0.2").
  simpl. lia.
Defined.

(** X2.  An oracle built with a capacity of zero or less never holds a key:
    after any run of [put] calls it is empty, so [check_if_exists] is false
    for every key and [__len__] is 0. *)
Theorem nonpositive_capacity_holds_nothing (N : Z) (keys : list string) :
  N <= 0 →
  (c0 ← __init__ N; put_all c0 keys) = Ok {| cache := []; capacity := N |} ∧
  ∀ c, (c0 ← __init__ N; put_all c0 keys) = Ok c →
       __len__ c = 0 ∧ ∀ key, check_if_exists c key = false.
Proof.
  intros HN.
  assert (Hrun : (c0 ← __init__ N; put_all c0 keys)
                 = Ok {| cache := []; capacity := N |}).
  { simpl. unfold put_all. induction keys as [|key keys IH]; [done|].
    cbn [for_in]. rewrite put_unfold. simpl.
    destruct (Z.ltb_spec N (Z.of_nat 1)); [|simpl in *; lia]. exact IH. }
  split; [exact Hrun|]. intros c Hc. rewrite Hrun in Hc. by injection Hc as <-.
Qed.

Lemma nonpositive_capacity_holds_nothing_example :
  0 <= 0 ∧
  (c0 ← __init__ 0; put_all c0 ["10.0.0.1"; "10.0.0.2"])
    = Ok {| cache := []; capacity := 0 |} ∧
  ∀ c, (c0 ← __init__ 0; put_all c0 ["10.0.0.1"; "10.0.0.2"]) = Ok c →
       __len__ c = 0 ∧ ∀ key, check_if_exists c key = false.
Proof.
  split; [lia|].
  apply (nonpositive_capacity_holds_nothing 0 ["10.0.0.1"; "10.0.0.2"]). lia.
Defined.

(** X3.  [put] changes what the oracle holds only for the key put and for
    the oldest key: no other key appears, and a key held before is still held
    unless it was the oldest one of a full oracle and the key put was new. *)
Theorem put_frame (self : t) (key k : string) :
  lru_inv self → k ≠ key →
  ∃ self', put self key = Ok self' ∧
    (check_if_exists self' k = true → check_if_exists self k = true) ∧
    (check_if_exists self k = true →
       check_if_exists self' k = true ∨
       (head (cache self) = Some k ∧ check_if_exists self key = false ∧
        __len__ self = capacity self)).
Proof.
  intros [Hnd Hlen] Hne. rewrite put_unfold. cbn zeta.
  unfold check_if_exists, __len__.
  destruct (decide (key ∈ cache self)) as [Hin|Hnot].
  - pose proof (refreshed_length_present _ _ Hnd Hin) as Hl.
    destruct (Z.ltb_spec (capacity self)
                (Z.of_nat (length (refreshed (cache self) key)))); [lia|].
    eexists. split; [done|]. simpl.
    destruct (refreshed_last (cache self) key) as (front & -> & _ & Hfront).
    assert (Hiff : k ∈ front ++ [key] ↔ k ∈ cache self).
    { rewrite elem_of_app, Hfront, list_elem_of_singleton. tauto. }
    split.
    + destruct (OrderedDict.contains (front ++ [key]) k) eqn:Hc; [|done].
      intros _. apply contains_true in Hc. apply Hiff in Hc.
      by apply contains_true in Hc as ->.
    + destruct (OrderedDict.contains (cache self) k) eqn:Hc; [|done].
      intros _. left. apply contains_true in Hc. apply Hiff in Hc.
      by apply contains_true in Hc as ->.
  - rewrite (refreshed_length_absent _ _ Hnot), length_app. simpl.
    apply contains_false in Hnot as Hnotb.
    destruct (Z.ltb_spec (capacity self) (Z.of_nat (length (cache self) + 1))).
    + eexists. split; [done|]. simpl.
      destruct (cache self) as [|oldest rest] eqn:Hcache.
      { simpl. split; [done|]. intros Hk. by left. }
      simpl. apply NoDup_cons in Hnd as [Hold Hnd].
      split.
      * destruct (OrderedDict.contains (rest ++ [key]) k) eqn:Hc; [|done].
        intros _. apply contains_true in Hc.
        apply elem_of_app in Hc as [Hc|Hc];
          [|by apply list_elem_of_singleton in Hc].
        assert (Hk : k ∈ oldest :: rest) by (by right).
        by apply contains_true in Hk as ->.
      * destruct (OrderedDict.contains (oldest :: rest) k) eqn:Hc; [|done].
        intros _. apply contains_true in Hc.
        apply elem_of_cons in Hc as [->|Hc].
        -- right. split_and!; [done | by rewrite Hnotb |].
           simpl in *. lia.
        -- left. assert (Hk : k ∈ rest ++ [key]) by (apply elem_of_app; by left).
           by apply contains_true in Hk as ->.
    + eexists. split; [done|]. simpl. split.
      * destruct (OrderedDict.contains (cache self ++ [key]) k) eqn:Hc; [|done].
        intros _. apply contains_true in Hc.
        apply elem_of_app in Hc as [Hc|Hc];
          [|by apply list_elem_of_singleton in Hc].
        by apply contains_true in Hc as ->.
      * destruct (OrderedDict.contains (cache self) k) eqn:Hc; [|done].
        intros _. left. apply contains_true in Hc.
        assert (Hk : k ∈ cache self ++ [key]) by (apply elem_of_app; by left).
        by apply contains_true in Hk as ->.
Qed.

Lemma put_frame_example :
  (lru_inv {| cache := ["10.0.0.1"; "10.0.0.2"]; capacity := 2 |} ∧
   "10.0.0.1" ≠ "10.0.0.3") ∧
  ∃ self',
    put {| cache := ["10.0.0.1"; "10.0.0.2"]; capacity := 2 |} "10.0.0.3"
      = Ok self' ∧
    (check_if_exists self' "10.0.0.1" = true →
     check_if_exists {| cache := ["10.0.0.1"; "10.0.0.2"]; capacity := 2 |}
       "10.0.0.1" = true) ∧
    (check_if_exists {| cache := ["10.0.0.1"; "10.0.0.2"]; capacity := 2 |}
       "10.0.0.1" = true →
     check_if_exists self' "10.0.0.1" = true ∨
     (head (cache {| cache := ["10.0.0.1"; "10.0.0.2"]; capacity := 2 |})
        = Some "10.0.0.1" ∧
      check_if_exists {| cache := ["10.0.0.1"; "10.0.0.2"]; capacity := 2 |}
        "10.0.0.3" = false ∧
      __len__ {| cache := ["10.0.0.1"; "10.0.0.2"]; capacity := 2 |}
        = capacity {| cache := ["10.0.0.1"; "10.0.0.2"]; capacity := 2 |})).
Proof.
  assert (Hinv : lru_inv {| cache := ["10.0.0.1"; "10.0.0.2"]; capacity := 2 |}).
  { split; [by_evaluation | simpl; lia]. }
  assert (Hne : "10.0.0.1" ≠ "10.0.0.3") by discriminate.
  split; [by split|].
  exact (put_frame _ "10.0.0.3" "10.0.0.1" Hinv Hne).
Defined.

Lemma put_again (c : t) (front : list string) (key : string) :
  cache c = front ++ [key] → key ∉ front →
  Z.of_nat (length (cache c)) <= capacity c →
  put c key = Ok c.
Proof.
  intros Hc Hnot Hlen. rewrite put_unfold. cbn zeta.
  assert (Hr : refreshed (cache c) key = cache c).
  { unfold refreshed. rewrite Hc, filter_app, filter_absent by done.
    rewrite filter_cons_False by (intros Hk; by apply Hk).
    by rewrite filter_nil, app_nil_r. }
  rewrite Hr. destruct (Z.ltb_spec (capacity c) (Z.of_nat (length (cache c))));
    [lia|]. by destruct c.
Qed.

(** X4.  Putting the same key twice in a row is the same as putting it
    once. *)
Theorem put_idempotent (self : t) (key : string) :
  lru_inv self →
  ∃ self', put self key = Ok self' ∧ put self' key = Ok self'.
Proof.
  intros Hinv. pose proof Hinv as [Hnd Hlen].
  destruct (put_inv self key) as (c1 & Hput & Hcap & Hinv1); [lia | done |].
  exists c1. split; [done|]. destruct Hinv1 as [_ Hlen1].
  rewrite put_unfold in Hput. cbn zeta in Hput.
  destruct (refreshed_last (cache self) key) as (front & Hr & Hnot & _).
  rewrite Hr in Hput.
  destruct (Z.ltb_spec (capacity self) (Z.of_nat (length (front ++ [key])))).
  - injection Hput as <-. destruct front as [|a front]; simpl in *.
    + rewrite put_unfold. simpl.
      destruct (Z.ltb_spec (capacity self) (Z.of_nat 1)); [done|]. simpl in *. lia.
    + apply (put_again _ front); simpl; [done | | done].
      intros Hin. apply Hnot. by right.
  - injection Hput as <-. by apply (put_again _ front).
Qed.

Lemma put_idempotent_example :
  lru_inv {| cache := ["10.0.0.1"; "10.0.0.2"]; capacity := 2 |} ∧
  ∃ self',
    put {| cache := ["10.0.0.1"; "10.0.0.2"]; capacity := 2 |} "10.0.0.1"
      = Ok self' ∧
    put self' "10.0.0.1" = Ok self'.
Proof.
  assert (Hinv : lru_inv {| cache := ["10.0.0.1"; "10.0.0.2"]; capacity := 2 |}).
  { split; [by_evaluation | simpl; lia]. }
  split; [exact Hinv|].
  exact (put_idempotent _ "10.0.0.1" Hinv).
Defined.

Lemma put_window (ks : list string) (c : t) (key : string) :
  window_of ks c →
  ∃ c', put c key = Ok c' ∧ capacity c' = capacity c ∧
        window_of (ks ++ [key]) c'.
Proof.
  intros (Hnd & Hlen & Hsub & Hall).
  destruct (put_inv c key) as (c' & Hput & Hcap & Hnd' & Hlen');
    [lia | by split |].
  exists c'. split; [done|]. split; [done|].
  rewrite put_unfold in Hput. cbn zeta in Hput.
  split; [done|]. split; [done|].
  assert (Hks : (list_to_set (ks ++ [key]) : gset string)
                = list_to_set ks ∪ {[key]}).
  { rewrite list_to_set_app_L. simpl. by rewrite (right_id_L ∅ (∪)). }
  rewrite Hks.
  destruct (decide (key ∈ cache c)) as [Hin|Hnot].
  - pose proof (refreshed_length_present _ _ Hnd Hin) as Hl.
    destruct (Z.ltb_spec (capacity c) (Z.of_nat (length (refreshed (cache c) key))));
      [lia|].
    injection Hput as <-. simpl.
    assert (Hset : (list_to_set (refreshed (cache c) key) : gset string)
                   = list_to_set (cache c)).
    { apply set_eq. intros k. rewrite !elem_of_list_to_set.
      destruct (refreshed_last (cache c) key) as (front & -> & _ & Hfront).
      rewrite elem_of_app, Hfront, list_elem_of_singleton.
      destruct (decide (k = key)) as [->|]; tauto. }
    rewrite Hset, Hl. split.
    + etrans; [exact Hsub|]. apply union_subseteq_l.
    + destruct Hall as [Hfull|Heq]; [by left|right].
      rewrite Heq. apply set_eq. intros k.
      rewrite elem_of_union, elem_of_singleton, <- Heq, elem_of_list_to_set.
      split; [by left|]. intros [?| ->]; done.
  - rewrite (refreshed_length_absent _ _ Hnot), length_app in Hput.
    simpl in Hput.
    destruct (Z.ltb_spec (capacity c) (Z.of_nat (length (cache c) + 1))).
    + injection Hput as <-. cbn [cache capacity].
      destruct (cache c) as [|a rest] eqn:Hcache.
      * cbn [app List.tl length] in *. split; [apply empty_subseteq|].
        left. lia.
      * cbn [app List.tl] in *. split.
        -- apply elem_of_subseteq. intros k Hk. apply elem_of_list_to_set in Hk.
           apply elem_of_union. rewrite elem_of_singleton.
           apply elem_of_app in Hk as [Hk|Hk].
           ++ left. apply Hsub, elem_of_list_to_set. by right.
           ++ right. by apply list_elem_of_singleton in Hk.
        -- left. rewrite length_app. cbn [length] in *. lia.
    + injection Hput as <-. simpl. split.
      * rewrite list_to_set_app_L. simpl. rewrite (right_id_L ∅ (∪)).
        by apply union_mono_r.
      * destruct Hall as [Hfull|Heq]; [lia|]. right.
        rewrite list_to_set_app_L. simpl. rewrite (right_id_L ∅ (∪)).
        by rewrite Heq.
Qed.

Lemma put_all_window (more ks : list string) (c : t) :
  window_of ks c →
  ∃ c', put_all c more = Ok c' ∧ capacity c' = capacity c ∧
        window_of (ks ++ more) c'.
Proof.
  revert ks c. induction more as [|key more IH]; intros ks c Hw.
  - exists c. by rewrite app_nil_r.
  - destruct (put_window ks c key Hw) as (c1 & Hput & Hcap & Hw1).
    destruct (IH _ _ Hw1) as (c' & Hrun & Hcap' & Hw').
    exists c'. unfold put_all in *. cbn [for_in]. rewrite Hput.
    cbn [mbind result_bind]. split; [done|]. split; [congruence|].
    by rewrite <- app_assoc in Hw'.
Qed.

(** X5.  After any run of [put] calls on an oracle of capacity [N >= 0],
    [__len__] is the number of distinct keys put, capped at [N]. *)
Theorem len_is_distinct_keys_capped (N : Z) (keys : list string) :
  0 <= N →
  ∃ c, (c0 ← __init__ N; put_all c0 keys) = Ok c ∧
       __len__ c = Z.min (Z.of_nat (size (list_to_set keys : gset string))) N.
Proof.
  intros HN. simpl.
  destruct (put_all_window keys [] {| cache := []; capacity := N |})
    as (c & Hrun & Hcap & Hnd & Hlen & Hsub & Hall).
  { split_and!; simpl; [apply NoDup_nil_2 | lia | done | by right]. }
  exists c. split; [done|]. simpl in *. unfold __len__.
  pose proof (size_list_to_set (C := gset string) (cache c) Hnd) as Hsize.
  pose proof (subseteq_size _ _ Hsub) as Hle.
  destruct Hall as [Hfull|Heq]; [lia|]. rewrite Heq in Hsize. lia.
Qed.

Lemma len_is_distinct_keys_capped_example :
  0 <= 2 ∧
  ∃ c, (c0 ← __init__ 2;
        put_all c0 ["10.0.0.1"; "10.0.0.2"; "10.0.0.1"; "10.0.0.3"]) = Ok c ∧
       __len__ c =
         Z.min (Z.of_nat (size (list_to_set
                  ["10.0.0.1"; "10.0.0.2"; "10.0.0.1"; "10.0.0.3"]
                  : gset string))) 2.
Proof.
  split; [lia|].
  apply (len_is_distinct_keys_capped 2
           ["10.0.0.1"; "10.0.0.2"; "10.0.0.1"; "10.0.0.3"]). lia.
Defined.

End OracleMore.

(** * More properties of the Min-Cut sketch *)
Section MinCutMore.
Context {H : Mmh3}.
Variables (ets nb k cs : Z).
Hypothesis nb_pos : 0 < nb.

Local Abbreviation table_shape := (table_shape nb k).
Local Abbreviation hits := (hits nb).
Local Abbreviation tally := (tally nb).
Local Abbreviation sketch_of := (sketch_of ets nb k).

Lemma row_sum_insert (row : list Z) (j : nat) (v : Z) :
  (j < length row)%nat →
  row_sum (<[j := v]> row) = row_sum row - row !!! j + v.
Proof.
  revert j. induction row as [|a row IH]; intros j Hj; simpl in *; [lia|].
  destruct j as [|j]; simpl; [lia|]. rewrite IH by lia.
  change ((a :: row) !!! S j) with (row !!! j). lia.
Qed.

Lemma row_sum_bump (row : list Z) (cell : Z) :
  0 <= cell < Z.of_nat (length row) →
  row_sum (bump row cell) = row_sum row + 1.
Proof. intros Hc. unfold bump. rewrite row_sum_insert by lia. lia. Qed.

Lemma row_sums_bump (tbl : list (list Z)) (cells : list Z) (total : Z) :
  cells_fit tbl cells →
  Forall (λ row, row_sum row = total) tbl →
  Forall (λ row, row_sum row = total + 1) (zip_with bump tbl cells).
Proof.
  induction 1 as [|row cell tbl cells Hc Hfit IH]; intros Hall; simpl.
  - constructor.
  - apply Forall_cons in Hall as [Hrow Hall]. constructor; [|by apply IH].
    rewrite row_sum_bump by done. lia.
Qed.

(** One [add_new] on a sketch, with the table it leaves. *)
Lemma add_new_table (ks : list string) (s : MinCut.t) (x : string) :
  sketch_of ks s →
  ∃ s', MinCut.add_new s x = Ok s' ∧ sketch_of (ks ++ [x]) s' ∧
        MinCut.table s' = zip_with bump (MinCut.table s) (indices k x nb).
Proof.
  intros Hs. destruct (add_new_sketch ets nb k nb_pos ks s x Hs)
    as (s' & Hadd & Hs').
  exists s'. split; [done|]. split; [done|].
  pose proof Hs as [Hk Hnb _ Hshape _ _].
  unfold MinCut.add_new in Hadd.
  destruct (put_total (DataStructure.cache (MinCut.base s)) x) as (c & Hput & _).
  rewrite Hput in Hadd. cbn [mbind result_bind] in Hadd.
  cbn [MinCut.base MinCut.num_of_buckets] in Hadd.
  rewrite _get_hash_values_ok in Hadd by lia. cbn [mbind result_bind] in Hadd.
  cbn [DataStructure.with_cache DataStructure.num_of_hash_functions] in Hadd.
  rewrite Hk, Hnb in Hadd.
  rewrite _inc_fit in Hadd by (by apply cells_fit_indices).
  by injection Hadd as <-.
Qed.

Lemma add_all_row_sums (more ks : list string) (s : MinCut.t) :
  sketch_of ks s →
  Forall (λ row, row_sum row = Z.of_nat (length ks)) (MinCut.table s) →
  ∃ s', MinCut.add_all s more = Ok s' ∧ sketch_of (ks ++ more) s' ∧
        Forall (λ row, row_sum row = Z.of_nat (length (ks ++ more)))
               (MinCut.table s').
Proof.
  revert ks s. induction more as [|x more IH]; intros ks s Hs Hsum.
  - exists s. by rewrite app_nil_r.
  - destruct (add_new_table ks s x Hs) as (s1 & Hadd & Hs1 & Htbl).
    destruct (IH (ks ++ [x]) s1 Hs1) as (s' & Hrun & Hs' & Hsum').
    { rewrite Htbl, length_app. simpl.
      replace (Z.of_nat (length ks + 1)) with (Z.of_nat (length ks) + 1) by lia.
      apply row_sums_bump; [|done].
      apply cells_fit_indices; [done|]. by destruct Hs. }
    exists s'. unfold MinCut.add_all in *. cbn [for_in]. rewrite Hadd.
    cbn [mbind result_bind]. rewrite <- app_assoc in Hs', Hsum'. done.
Qed.

(** X6.  After any run of [add_new] calls on a fresh sketch with
    [num_of_buckets > 0], the counters of every row add up to the number of
    calls: each call adds one to exactly one counter of each row. *)
Theorem rows_sum_to_insertions (keys : list string) :
  ∃ s, (s0 ← MinCut.__init__ ets nb k cs; MinCut.add_all s0 keys) = Ok s ∧
       length (MinCut.table s) = Z.to_nat k ∧
       Forall (λ row, row_sum row = Z.of_nat (length keys)) (MinCut.table s).
Proof.
  rewrite MinCut_init. cbn [mbind result_bind].
  destruct (add_all_row_sums keys [] (MinCut_fresh ets nb k cs))
    as (s & Hrun & Hs & Hsum); [apply fresh_sketch | |].
  { simpl. apply Forall_replicate. unfold row_sum.
    induction (Z.to_nat nb) as [|m IH]; simpl; [done|]. by rewrite IH. }
  exists s. split; [done|]. split; [|done].
  by destruct Hs as [_ _ _ [Hlen _] _ _].
Qed.

(** X7.  Counters never decrease: over any further run of [add_new] calls
    each counter grows, by no more than the number of calls. *)
Theorem counters_monotone (keys more : list string) :
  ∃ s s',
    (s0 ← MinCut.__init__ ets nb k cs; MinCut.add_all s0 keys) = Ok s ∧
    MinCut.add_all s more = Ok s' ∧
    ∀ i j, (i < Z.to_nat k)%nat → (j < Z.to_nat nb)%nat →
      counter (MinCut.table s) i j <= counter (MinCut.table s') i j
        <= counter (MinCut.table s) i j + Z.of_nat (length more).
Proof.
  destruct (run_sketch ets nb k cs nb_pos keys) as (s & Hrun & Hs).
  destruct (add_all_sketch ets nb k nb_pos more keys s Hs) as (s' & Hmore & Hs').
  exists s, s'. split; [done|]. split; [done|]. intros i j Hi Hj.
  rewrite (sketch_counter _ _ _ _ _ Hs i j Hi Hj).
  rewrite (sketch_counter _ _ _ _ _ Hs' i j Hi Hj).
  unfold tally. rewrite filter_app, length_app.
  pose proof (length_filter (hits i j) more). lia.
Qed.

(** X8.  A key inserted often enough is always reported: when the number of
    its insertions times [num_of_elements_to_save] is at least the number of
    distinct keys, [should_exists] answers [True]. *)
Theorem heavy_key_is_reported (keys : list string) (x : string) :
  0 < ets → Z.of_nat (length keys) <= sys_maxsize →
  Z.of_nat (size (list_to_set keys : gset string))
    <= Z.of_nat (length (filter (λ key, key = x) keys)) * ets →
  ∃ s, (s0 ← MinCut.__init__ ets nb k cs; MinCut.add_all s0 keys) = Ok s ∧
       MinCut.should_exists s x = Ok true.
Proof.
  intros Hets Hlen Hheavy.
  destruct (run_sketch ets nb k cs nb_pos keys) as (s & Hrun & Hs).
  exists s. split; [done|].
  rewrite (should_exists_of_sketch ets nb k nb_pos keys s x Hs) by lia.
  f_equal. apply Qle_bool_iff.
  rewrite (sketch_elements _ _ _ _ _ Hs).
  set (c := Z.of_nat (length (filter (λ key, key = x) keys))) in *.
  assert (Hest : c <= foldl lower sys_maxsize (key_counters s x)).
  { apply foldl_lower_ge.
    - pose proof (length_filter (λ key, key = x) keys). lia.
    - eapply Forall_impl;
        [exact (key_counters_bounds ets nb k nb_pos keys s x Hs)|].
      simpl. intros v Hv. fold c in Hv. lia. }
  apply Qle_shift_div_r; [by rewrite <- (Zlt_Qlt 0)|].
  rewrite <- inject_Z_mult, <- Zle_Qle. nia.
Qed.

Lemma filter_agree (P Q : string → Prop)
    `{!∀ x, Decision (P x)} `{!∀ x, Decision (Q x)} (l : list string) :
  Forall (λ x, P x ↔ Q x) l → filter P l = filter Q l.
Proof.
  induction 1 as [|x l Hx Hl IH]; [done|].
  destruct (decide (P x)) as [HP|HP].
  - rewrite (filter_cons_True P), (filter_cons_True Q) by tauto. by rewrite IH.
  - rewrite (filter_cons_False P), (filter_cons_False Q) by tauto. done.
Qed.

(** X9.  The estimate is exact when some row has no collision: if in one
    row no other inserted key falls in the cell of [x], then [_count] returns
    exactly the number of insertions of [x]. *)
Theorem count_exact_without_collision
    (keys : list string) (x : string) (i : Z) :
  Z.of_nat (length keys) <= sys_maxsize →
  0 <= i < k →
  Forall (λ y, mmh3_hash y i `mod` nb = mmh3_hash x i `mod` nb → y = x) keys →
  ∃ s hashed,
    (s0 ← MinCut.__init__ ets nb k cs; MinCut.add_all s0 keys) = Ok s ∧
    DataStructure._get_hash_values (MinCut.base s) x (MinCut.num_of_buckets s)
      = Ok hashed ∧
    MinCut._count s hashed
      = Ok (Z.of_nat (length (filter (λ key, key = x) keys))).
Proof.
  intros Hlen Hi Halone.
  destruct (run_sketch ets nb k cs nb_pos keys) as (s & Hrun & Hs).
  destruct (estimate_of_sketch ets nb k nb_pos keys s x Hs) as [Hhash Hcount].
  exists s, (indices k x nb). split; [done|]. split; [done|].
  rewrite Hcount. f_equal.
  set (c := Z.of_nat (length (filter (λ key, key = x) keys))).
  pose proof (key_counters_bounds ets nb k nb_pos keys s x Hs) as Hbounds.
  fold c in Hbounds.
  assert (Hge : c <= foldl lower sys_maxsize (key_counters s x)).
  { apply foldl_lower_ge.
    - pose proof (length_filter (λ key, key = x) keys). lia.
    - eapply Forall_impl; [exact Hbounds|]. simpl. intros v Hv. lia. }
  destruct (foldl_lower_spec (key_counters s x) sys_maxsize) as (_ & Hall & _).
  assert (Hrow : c ∈ key_counters s x).
  { unfold key_counters. apply list_elem_of_fmap. exists i. split.
    - pose proof (Z.mod_pos_bound (mmh3_hash x i) nb nb_pos).
      rewrite (sketch_nb _ _ _ _ _ Hs).
      rewrite (sketch_counter _ _ _ _ _ Hs) by lia.
      unfold c, tally. do 2 f_equal. apply filter_agree.
      eapply Forall_impl; [exact Halone|]. simpl. intros y Hy.
      unfold hits. rewrite Z2Nat.id by lia. split.
      + intros ->. done.
      + intros Hhit. apply Hy.
        pose proof (Z.mod_pos_bound (mmh3_hash y i) nb nb_pos). lia.
    - rewrite (sketch_k _ _ _ _ _ Hs). unfold range. apply elem_of_seqZ. lia. }
  rewrite Forall_forall in Hall. pose proof (Hall c Hrow). lia.
Qed.

(** X10.  The key just inserted is in the window: after [add_new] on a
    sketch whose oracle has capacity at least 1, [is_exists] is true for
    it. *)
Theorem add_new_then_is_exists (s s' : MinCut.t) (x : string) :
  0 < LRUCache.capacity (DataStructure.cache (MinCut.base s)) →
  MinCut.add_new s x = Ok s' →
  MinCut.is_exists s' x = true.
Proof.
  intros Hcap Hadd.
  destruct (put_holds_key (DataStructure.cache (MinCut.base s)) x Hcap)
    as (c & Hput & Hc).
  unfold MinCut.add_new in Hadd. rewrite Hput in Hadd.
  cbn [mbind result_bind] in Hadd.
  destruct (DataStructure._get_hash_values _ _ _) as [hashed|]; [|done].
  cbn [mbind result_bind] in Hadd. unfold MinCut._inc in Hadd.
  destruct (for_in _ _ _) as [tbl|]; [|done].
  cbn [mbind result_bind] in Hadd. injection Hadd as <-.
  unfold MinCut.is_exists, DataStructure.is_exists, LRUCache.check_if_exists.
  simpl. by apply contains_true in Hc as ->.
Qed.

End MinCutMore.

Lemma rows_sum_to_insertions_example :
  0 < 10 ∧
  ∃ s, (s0 ← MinCut.__init__ 5 10 2 3;
        @MinCut.add_all Pymmh3.murmur3 s0 scenario_keys) = Ok s ∧
       length (MinCut.table s) = Z.to_nat 2 ∧
       Forall (λ row, row_sum row = Z.of_nat (length scenario_keys))
              (MinCut.table s).
Proof.
  split; [lia|].
  apply (@rows_sum_to_insertions Pymmh3.murmur3 5 10 2 3). lia.
Defined.

Lemma counters_monotone_example :
  0 < 10 ∧
  ∃ s s',
    (s0 ← MinCut.__init__ 5 10 2 3;
     @MinCut.add_all Pymmh3.murmur3 s0 scenario_keys) = Ok s ∧
    @MinCut.add_all Pymmh3.murmur3 s ["10.0.0.9"] = Ok s' ∧
    ∀ i j, (i < Z.to_nat 2)%nat → (j < Z.to_nat 10)%nat →
      counter (MinCut.table s) i j <= counter (MinCut.table s') i j
        <= counter (MinCut.table s) i j + Z.of_nat (length ["10.0.0.9"]).
Proof.
  split; [lia|].
  apply (@counters_monotone Pymmh3.murmur3 5 10 2 3). lia.
Defined.

Lemma heavy_key_is_reported_example :
  (0 < 10 ∧ 0 < 5 ∧ Z.of_nat (length scenario_keys) <= sys_maxsize ∧
   Z.of_nat (size (list_to_set scenario_keys : gset string))
     <= Z.of_nat (length (filter (λ key, key = "10.0.0.1") scenario_keys)) * 5) ∧
  ∃ s, (s0 ← MinCut.__init__ 5 10 2 3;
        @MinCut.add_all Pymmh3.murmur3 s0 scenario_keys) = Ok s ∧
       @MinCut.should_exists Pymmh3.murmur3 s "10.0.0.1" = Ok true.
Proof.
  assert (Hlen : Z.of_nat (length scenario_keys) <= sys_maxsize)
    by by_evaluation.
  assert (Hheavy :
    Z.of_nat (size (list_to_set scenario_keys : gset string))
      <= Z.of_nat (length (filter (λ key, key = "10.0.0.1") scenario_keys)) * 5)
    by by_evaluation.
  split; [split_and!; [lia | lia | exact Hlen | exact Hheavy]|].
  exact (@heavy_key_is_reported Pymmh3.murmur3 5 10 2 3 ltac:(lia)
           scenario_keys "10.0.0.1" ltac:(lia) Hlen Hheavy).
Defined.

Lemma count_exact_without_collision_example :
  (0 < 10 ∧ Z.of_nat (length scenario_keys) <= sys_maxsize ∧ 0 <= 0 < 2 ∧
   Forall (λ y, Pymmh3.hash y 0 `mod` 10 = Pymmh3.hash "10.0.0.1" 0 `mod` 10 →
                y = "10.0.0.1") scenario_keys) ∧
  ∃ s hashed,
    (s0 ← MinCut.__init__ 5 10 2 3;
     @MinCut.add_all Pymmh3.murmur3 s0 scenario_keys) = Ok s ∧
    @DataStructure._get_hash_values Pymmh3.murmur3 (MinCut.base s) "10.0.0.1"
      (MinCut.num_of_buckets s) = Ok hashed ∧
    MinCut._count s hashed = Ok 5.
Proof.
  assert (Hlen : Z.of_nat (length scenario_keys) <= sys_maxsize)
    by by_evaluation.
  assert (Halone :
    Forall (λ y, Pymmh3.hash y 0 `mod` 10 = Pymmh3.hash "10.0.0.1" 0 `mod` 10 →
                 y = "10.0.0.1") scenario_keys) by by_evaluation.
  split; [split_and!; [lia | exact Hlen | lia | lia | exact Halone]|].
  exact (@count_exact_without_collision Pymmh3.murmur3 5 10 2 3 ltac:(lia)
           scenario_keys "10.0.0.1" 0 Hlen ltac:(lia) Halone).
Defined.

Lemma add_new_then_is_exists_example :
  ∃ s',
    (0 < LRUCache.capacity
           (DataStructure.cache (MinCut.base (MinCut_fresh 5 10 2 3))) ∧
     @MinCut.add_new Pymmh3.murmur3 (MinCut_fresh 5 10 2 3) "10.0.0.1" = Ok s') ∧
    MinCut.is_exists s' "10.0.0.1" = true.
Proof.
  eexists.
  assert (Hcap : 0 < LRUCache.capacity
            (DataStructure.cache (MinCut.base (MinCut_fresh 5 10 2 3))))
    by (simpl; lia).
  assert (Hadd :
    @MinCut.add_new Pymmh3.murmur3 (MinCut_fresh 5 10 2 3) "10.0.0.1" = Ok _)
    by (vm_compute; reflexivity).
  split; [split; [exact Hcap | exact Hadd]|].
  exact (@add_new_then_is_exists Pymmh3.murmur3 _ _ "10.0.0.1" Hcap Hadd).
Defined.

(** ** A sketch with unusable parameters *)
Section MinCutErrors.
Context {H : Mmh3}.

Lemma indices_cons (k : Z) (x : string) (range_size : Z) :
  0 < k →
  indices k x range_size =
    mmh3_hash x 0 `mod` range_size ::
    ((λ i, mmh3_hash x i `mod` range_size) <$> seqZ 1 (Z.pred k)).
Proof. intros Hk. unfold indices, range. by rewrite seqZ_cons. Qed.

Lemma getitem_nil {A : Type} (i : Z) : getitem (@nil A) i = Raise IndexError.
Proof.
  unfold getitem. destruct (py_position [] i); [by rewrite lookup_nil | done].
Qed.

(** X11.  The constructor accepts unusable parameters and the first call
    fails: with [num_of_elements_to_save = 0], [should_exists] raises
    [ZeroDivisionError] in every state; with [num_of_buckets = 0] and a hash
    function, the first [add_new] raises [ZeroDivisionError]; with
    [num_of_buckets < 0] and a hash function, the rows are empty and the first
    [add_new] raises [IndexError]. *)
Theorem unusable_sketch_fails_at_first_call :
  (∀ s key, MinCut.num_of_elements_to_save s = 0 →
     MinCut.should_exists s key = Raise ZeroDivisionError) ∧
  (∀ ets k cs x, 0 < k →
     (s ← MinCut.__init__ ets 0 k cs; MinCut.add_new s x)
       = Raise ZeroDivisionError) ∧
  (∀ ets nb k cs x, nb < 0 → 0 < k →
     (s ← MinCut.__init__ ets nb k cs; MinCut.add_new s x) = Raise IndexError).
Proof.
  split_and!.
  - intros s key Hets. unfold MinCut.should_exists, truediv. by rewrite Hets.
  - intros ets k cs x Hk. rewrite MinCut_init. cbn [mbind result_bind].
    unfold MinCut.add_new.
    destruct (put_total (DataStructure.cache (MinCut.base (MinCut_fresh ets 0 k cs))) x)
      as (c & -> & _).
    cbn [mbind result_bind]. rewrite _get_hash_values_zero; [done|]. done.
  - intros ets nb k cs x Hnb Hk. rewrite MinCut_init. cbn [mbind result_bind].
    unfold MinCut.add_new.
    destruct (put_total (DataStructure.cache (MinCut.base (MinCut_fresh ets nb k cs))) x)
      as (c & -> & _).
    cbn [mbind result_bind]. rewrite _get_hash_values_ok by (simpl; lia).
    cbn [mbind result_bind]. unfold MinCut._inc, enumerate. simpl.
    rewrite indices_cons by done. simpl length.
    rewrite seqZ_cons by lia. cbn [zip zip_with for_in].
    destruct (Z.to_nat k) as [|m] eqn:Hm; [lia|].
    replace (Z.to_nat nb) with 0%nat by lia. simpl.
    rewrite getitem_nil. done.
Qed.

End MinCutErrors.

(** * More properties of the selective counting Bloom filter *)
Section FilterMore.
Context {H : Mmh3}.
Variables (k cs bf mx mem : Z).
Hypothesis bf_pos : 0 < bf.
Hypothesis mx_nonneg : 0 <= mx.
Hypothesis mem_nonzero : mem ≠ 0.

Import SCBloomFilter.
Local Abbreviation filter_of := (filter_of k cs bf mx mem).

(** The loop of [_add_element_to_bloom_filter] on positions inside the
    array: no counter decreases, every position hashed gains at least one,
    and the counters gain one per position in all. *)
Lemma bloom_loop_spec (hashed bfl : list Z) :
  Forall (λ v, 0 <= v < Z.of_nat (length bfl)) hashed →
  ∃ bfl',
    for_in hashed (λ value b, c ← getitem b value; setitem b value (c + 1)) bfl
      = Ok bfl' ∧
    length bfl' = length bfl ∧
    (∀ j, bfl !!! j <= bfl' !!! j) ∧
    Forall (λ v, bfl !!! Z.to_nat v + 1 <= bfl' !!! Z.to_nat v) hashed ∧
    row_sum bfl' = row_sum bfl + Z.of_nat (length hashed).
Proof.
  revert bfl. induction hashed as [|v hashed IH]; intros bfl Hfit.
  - exists bfl. split_and!; [done | done | done | constructor | simpl; lia].
  - apply Forall_cons in Hfit as [Hv Hfit]. cbn [for_in].
    rewrite getitem_in_range by done. cbn [mbind result_bind].
    rewrite setitem_in_range by done. cbn [mbind result_bind].
    set (b1 := <[Z.to_nat v := bfl !!! Z.to_nat v + 1]> bfl).
    assert (Hlen1 : length b1 = length bfl) by apply length_insert.
    assert (Hmono1 : ∀ j, bfl !!! j <= b1 !!! j).
    { intros j. unfold b1. rewrite list_lookup_total_insert.
      case_decide as Hd; [destruct Hd as [<- _]|]; lia. }
    assert (Hhead : b1 !!! Z.to_nat v = bfl !!! Z.to_nat v + 1).
    { unfold b1. rewrite list_lookup_total_insert_eq; [done|lia]. }
    destruct (IH b1) as (bfl' & Hrun & Hlen & Hmono & Hgain & Hsum).
    { rewrite Hlen1. done. }
    exists bfl'. split; [done|]. split; [congruence|]. split_and!.
    + intros j. specialize (Hmono1 j). specialize (Hmono j). lia.
    + constructor.
      * specialize (Hmono (Z.to_nat v)). lia.
      * eapply Forall_impl; [exact Hgain|]. simpl. intros u Hu.
        specialize (Hmono1 (Z.to_nat u)). lia.
    + rewrite Hsum. unfold b1. rewrite row_sum_insert by lia.
      simpl length. lia.
Qed.

(** The two outcomes of [add_new]: the key is only recorded, or it is
    admitted. *)
Lemma add_new_outcome (s : t) (x : string) :
  filter_of s →
  ∃ c s',
    LRUCache.put (DataStructure.cache (base s)) x = Ok c ∧
    add_new s x = Ok s' ∧ filter_of s' ∧
    (s' = observed s c x ∨
     ∃ bfl, s' = admitted s c x bfl ∧
       (∀ j, bloom_filter s !!! j <= bfl !!! j) ∧
       Forall (λ v, 1 <= bfl !!! Z.to_nat v) (indices k x bf) ∧
       row_sum bfl = row_sum (bloom_filter s) + Z.of_nat (Z.to_nat k)).
Proof.
  intros Hs.
  destruct (add_new_filter k cs bf mx mem bf_pos mem_nonzero s x Hs)
    as (s' & Hadd & Hs' & _).
  pose proof Hs as [Hk Hbf Hmx Hmem Hlen Hn Hbound Hcap Hlru Hnn Hun].
  destruct (put_total (DataStructure.cache (base s)) x) as (c & Hput & Hc).
  exists c, s'. split; [done|]. split; [done|]. split; [done|].
  unfold add_new in Hadd. rewrite Hput in Hadd. cbn [mbind result_bind] in Hadd.
  fold (observed s c x) in Hadd.
  destruct (_satisfy_paradox (observed s c x)) as [paradox|]; [|done].
  cbn [mbind result_bind] in Hadd.
  destruct paradox; cbn [negb] in Hadd; [left; congruence|].
  change (max_n (observed s c x) =? n (observed s c x))
    with (max_n s =? n s) in Hadd.
  destruct (Z.eqb_spec (max_n s) (n s)) as [Heq|Hne]; [left; congruence|].
  right. unfold _add_element_to_bloom_filter in Hadd.
  change (DataStructure._get_hash_values (base (observed s c x)) x
            (bf_size (observed s c x)))
    with (DataStructure._get_hash_values (base s) x (bf_size s)) in Hadd.
  rewrite Hbf, _get_hash_values_ok, Hk in Hadd by lia.
  cbn [mbind result_bind] in Hadd.
  change (bloom_filter (observed s c x)) with (bloom_filter s) in Hadd.
  destruct (bloom_loop_spec (indices k x bf) (bloom_filter s))
    as (bfl & Hloop & _ & Hmono & Hgain & Hsum).
  { rewrite Hlen. eapply Forall_impl; [by apply indices_in_range|].
    simpl. intros v Hv. lia. }
  rewrite Hloop in Hadd. cbn [mbind result_bind] in Hadd.
  rewrite _update_bound_admitted in Hadd by (simpl; lia).
  injection Hadd as <-. exists bfl. split; [done|]. split; [done|]. split.
  - eapply Forall_impl; [exact Hgain|]. simpl. intros v Hv.
    rewrite Forall_forall in Hnn.
    destruct (decide (Z.to_nat v < length (bloom_filter s))%nat) as [Hin|Hout].
    + pose proof (Hnn _ (list_elem_of_lookup_total_2 _ _ Hin)). lia.
    + rewrite (list_lookup_total_alt (bloom_filter s)) in Hv.
      rewrite lookup_ge_None_2 in Hv by lia. simpl in Hv. lia.
  - by rewrite Hsum, indices_length.
Qed.

Lemma row_sum_zeros (m : nat) : row_sum (replicate m 0) = 0.
Proof. induction m as [|m IH]; simpl; [done|]. by rewrite IH. Qed.

(** X12.  In every filter reached from a fresh one, the counters add up to
    the number of hash functions times the number of admitted keys: a key
    that is not admitted leaves no trace in the counters. *)
Theorem counters_sum_to_admissions (keys : list string) :
  ∃ s, (s0 ← __init__ k cs bf mx mem; add_all s0 keys) = Ok s ∧
       row_sum (bloom_filter s) = Z.max 0 k * n s.
Proof.
  rewrite SCBloomFilter_init. cbn [mbind result_bind]. unfold add_all.
  destruct (for_in_invariant
              (λ s, filter_of s ∧ row_sum (bloom_filter s) = Z.max 0 k * n s)
              keys (λ key self, add_new self key)
              (SCBloomFilter_fresh k cs bf mx mem))
    as (s & Hrun & _ & Hsum).
  - split; [by apply fresh_filter|]. simpl. rewrite row_sum_zeros. lia.
  - intros x s _ [Hs Hsum].
    destruct (add_new_outcome s x Hs) as (c & s' & _ & Hadd & Hs' & Hout).
    exists s'. split; [done|]. split; [done|].
    destruct Hout as [->|(bfl & -> & _ & _ & Hgain)]; simpl; [done|]. lia.
  - by exists s.
Qed.

Lemma add_all_monotone (more : list string) (s : t) :
  filter_of s →
  ∃ s', add_all s more = Ok s' ∧ filter_of s' ∧
        (∀ j, bloom_filter s !!! j <= bloom_filter s' !!! j) ∧
        n s <= n s' <= n s + Z.of_nat (length more).
Proof.
  revert s. induction more as [|x more IH]; intros s Hs.
  - exists s. split_and!; [done | done | done | lia | simpl; lia].
  - destruct (add_new_outcome s x Hs) as (c & s1 & _ & Hadd & Hs1 & Hout).
    destruct (IH s1 Hs1) as (s' & Hrun & Hs' & Hmono & Hn).
    exists s'. unfold add_all in *. cbn [for_in]. rewrite Hadd.
    cbn [mbind result_bind]. split; [done|]. split; [done|].
    simpl length.
    destruct Hout as [->|(bfl & -> & Hup & _ & _)]; simpl in *.
    + split; [done|lia].
    + split; [|lia]. intros j. specialize (Hup j). specialize (Hmono j). lia.
Qed.

(** X13.  Bloom counters never decrease and the count of admitted keys
    never goes down: over any further run of [add_new] calls each counter
    grows or stays, and [n] grows by at most one per call. *)
Theorem bloom_counters_monotone (keys more : list string) :
  ∃ s s',
    (s0 ← __init__ k cs bf mx mem; add_all s0 keys) = Ok s ∧
    add_all s more = Ok s' ∧
    length (bloom_filter s') = length (bloom_filter s) ∧
    (∀ j, bloom_filter s !!! j <= bloom_filter s' !!! j) ∧
    n s <= n s' <= n s + Z.of_nat (length more).
Proof.
  destruct (run_filter k cs bf mx mem bf_pos mx_nonneg mem_nonzero keys)
    as (s & Hrun & Hs).
  destruct (add_all_monotone more s Hs) as (s' & Hmore & Hs' & Hmono & Hn).
  exists s, s'. split_and!; try done; try lia.
  by rewrite (filter_len _ _ _ _ _ _ Hs), (filter_len _ _ _ _ _ _ Hs').
Qed.

Lemma check_loop_positive (bfl cells : list Z) (mul_res : Z) :
  Forall (λ v, 0 <= v < Z.of_nat (length bfl)) cells →
  Forall (λ v, 1 <= bfl !!! Z.to_nat v) cells → 1 <= mul_res →
  ∃ r, _check_loop bfl cells mul_res = Ok r ∧ 1 <= r.
Proof.
  intros Hfit. revert mul_res.
  induction Hfit as [|v cells Hv Hfit IH]; intros mul_res Hpos Hm.
  - by exists mul_res.
  - apply Forall_cons in Hpos as [Hc Hpos]. simpl.
    rewrite getitem_in_range by done. cbn [mbind result_bind].
    destruct (Z.eqb_spec (bfl !!! Z.to_nat v) 0); [lia|].
    apply IH; [done|nia].
Qed.

(** X14.  No false negative from the counters: once [add_new] has admitted
    a key, [_check_bloom_filter] returns a positive value for it after any
    further run of [add_new] calls. *)
Theorem admitted_key_keeps_positive_counters
    (keys more : list string) (x : string) :
  ∃ s s1 s2,
    (s0 ← __init__ k cs bf mx mem; add_all s0 keys) = Ok s ∧
    add_new s x = Ok s1 ∧ add_all s1 more = Ok s2 ∧
    (n s1 = n s + 1 → ∃ r, _check_bloom_filter s2 x = Ok r ∧ 1 <= r).
Proof.
  destruct (run_filter k cs bf mx mem bf_pos mx_nonneg mem_nonzero keys)
    as (s & Hrun & Hs).
  destruct (add_new_outcome s x Hs) as (c & s1 & _ & Hadd & Hs1 & Hout).
  destruct (add_all_monotone more s1 Hs1) as (s2 & Hmore & Hs2 & Hmono & _).
  exists s, s1, s2. split_and!; try done.
  intros Hadmitted.
  destruct Hout as [->|(bfl & -> & _ & Hpos & _)]; [simpl in *; lia|].
  pose proof Hs2 as [Hk Hbf _ _ Hlen _ _ _ _ _ _].
  unfold _check_bloom_filter. rewrite Hbf, _get_hash_values_ok, Hk by lia.
  cbn [mbind result_bind]. apply check_loop_positive; [| |lia].
  - rewrite Hlen. eapply Forall_impl; [by apply indices_in_range|].
    simpl. intros v Hv. lia.
  - eapply Forall_impl; [exact Hpos|]. simpl. intros v Hv.
    specialize (Hmono (Z.to_nat v)). simpl in Hmono. lia.
Qed.

(** X15.  The first key is always admitted: on a fresh filter with
    [max_n > 0] and [memory_size > 0] the bound is [0], so [add_new] writes
    the key into the counters, sets [n] to 1 and stores the fixed bound. *)
Theorem first_key_is_admitted (x : string) :
  0 < mx → 0 < mem →
  ∃ s', (s ← __init__ k cs bf mx mem; add_new s x) = Ok s' ∧
        n s' = 1 ∧ bound s' = admission_bound bf mx ∧
        row_sum (bloom_filter s') = Z.max 0 k.
Proof.
  intros Hmx Hmem. rewrite SCBloomFilter_init. cbn [mbind result_bind].
  set (s := SCBloomFilter_fresh k cs bf mx mem).
  destruct (put_total (DataStructure.cache (base s)) x) as (c & Hput & _).
  destruct (bloom_loop_spec (indices k x bf) (bloom_filter s))
    as (bfl & Hloop & _ & _ & _ & Hsum).
  { simpl. rewrite length_replicate.
    eapply Forall_impl; [by apply indices_in_range|]. simpl. intros v Hv. lia. }
  exists (admitted s c x bfl). split.
  - apply (add_new_admits s x c (indices k x bf) bfl (LRUCache.__len__ c));
      try done; simpl; try lia.
    + unfold Rdiv. apply Rle_mult_inv_pos; [|by apply IZR_lt].
      apply IZR_le. unfold LRUCache.__len__. lia.
    + by apply _get_hash_values_ok; lia.
  - simpl. split; [done|]. split; [done|].
    rewrite Hsum, indices_length. simpl. rewrite row_sum_zeros. lia.
Qed.

(** X16.  A filter that has admitted nothing answers [False] to every key:
    with at least one hash function, [should_exists] is [False] while
    [n = 0]; in particular always when [max_n = 0]. *)
Theorem unused_filter_answers_false (keys : list string) :
  0 < k →
  ∃ s, (s0 ← __init__ k cs bf mx mem; add_all s0 keys) = Ok s ∧
       (mx = 0 → n s = 0) ∧
       (n s = 0 → ∀ key, should_exists s key = Ok false).
Proof.
  intros Hk.
  destruct (run_filter k cs bf mx mem bf_pos mx_nonneg mem_nonzero keys)
    as (s & Hrun & Hs).
  exists s. split; [done|].
  pose proof Hs as [Hks Hbf _ _ Hlen Hn _ _ _ _ Hun].
  split; [intros ->; lia|]. intros Hz key.
  unfold should_exists, _check_bloom_filter.
  rewrite Hbf, _get_hash_values_ok, Hks by lia. cbn [mbind result_bind].
  rewrite check_loop_zero; [done| |].
  - rewrite Hlen. eapply Forall_impl; [by apply indices_in_range|].
    simpl. intros v Hv. lia.
  - exists (mmh3_hash key 0 `mod` bf). split.
    + rewrite indices_cons by done. left.
    + specialize (Hun Hz). rewrite Forall_forall in Hun.
      apply Hun, list_elem_of_lookup_total_2.
      pose proof (Z.mod_pos_bound (mmh3_hash key 0) bf bf_pos). lia.
Qed.

End FilterMore.

Lemma counters_sum_to_admissions_example :
  (0 < 4 ∧ 0 <= 1 ∧ 1 ≠ 0) ∧
  ∃ s, (s0 ← SCBloomFilter.__init__ 2 3 4 1 1;
        @SCBloomFilter.add_all Pymmh3.murmur3 s0 ["10.0.0.1"; "10.0.0.6"]) = Ok s ∧
       row_sum (SCBloomFilter.bloom_filter s)
         = Z.max 0 2 * SCBloomFilter.n s.
Proof.
  split; [lia|].
  apply (@counters_sum_to_admissions Pymmh3.murmur3 2 3 4 1 1); lia.
Defined.

Lemma bloom_counters_monotone_example :
  (0 < 4 ∧ 0 <= 1 ∧ 1 ≠ 0) ∧
  ∃ s s',
    (s0 ← SCBloomFilter.__init__ 2 3 4 1 1;
     @SCBloomFilter.add_all Pymmh3.murmur3 s0 ["10.0.0.1"]) = Ok s ∧
    @SCBloomFilter.add_all Pymmh3.murmur3 s ["10.0.0.6"] = Ok s' ∧
    length (SCBloomFilter.bloom_filter s')
      = length (SCBloomFilter.bloom_filter s) ∧
    (∀ j, SCBloomFilter.bloom_filter s !!! j
          <= SCBloomFilter.bloom_filter s' !!! j) ∧
    SCBloomFilter.n s <= SCBloomFilter.n s'
      <= SCBloomFilter.n s + Z.of_nat (length ["10.0.0.6"]).
Proof.
  split; [lia|].
  apply (@bloom_counters_monotone Pymmh3.murmur3 2 3 4 1 1); lia.
Defined.

Lemma admitted_key_keeps_positive_counters_example :
  (0 < 4 ∧ 0 <= 2 ∧ 1 ≠ 0) ∧
  ∃ s s1 s2,
    (s0 ← SCBloomFilter.__init__ 2 3 4 2 1;
     @SCBloomFilter.add_all Pymmh3.murmur3 s0 []) = Ok s ∧
    @SCBloomFilter.add_new Pymmh3.murmur3 s "10.0.0.1" = Ok s1 ∧
    @SCBloomFilter.add_all Pymmh3.murmur3 s1 ["10.0.0.6"] = Ok s2 ∧
    (SCBloomFilter.n s1 = SCBloomFilter.n s + 1 →
     ∃ r, @SCBloomFilter._check_bloom_filter Pymmh3.murmur3 s2 "10.0.0.1"
            = Ok r ∧ 1 <= r).
Proof.
  split; [lia|].
  apply (@admitted_key_keeps_positive_counters Pymmh3.murmur3 2 3 4 2 1); lia.
Defined.

Lemma first_key_is_admitted_example :
  (0 < 4 ∧ 0 < 1 ∧ 0 < 1) ∧
  ∃ s', (s ← SCBloomFilter.__init__ 2 3 4 1 1;
         @SCBloomFilter.add_new Pymmh3.murmur3 s "10.0.0.1") = Ok s' ∧
        SCBloomFilter.n s' = 1 ∧
        SCBloomFilter.bound s' = admission_bound 4 1 ∧
        row_sum (SCBloomFilter.bloom_filter s') = Z.max 0 2.
Proof.
  split; [lia|].
  apply (@first_key_is_admitted Pymmh3.murmur3 2 3 4 1 1); lia.
Defined.

Lemma unused_filter_answers_false_example :
  (0 < 4 ∧ 0 <= 0 ∧ 1 ≠ 0 ∧ 0 < 2) ∧
  ∃ s, (s0 ← SCBloomFilter.__init__ 2 3 4 0 1;
        @SCBloomFilter.add_all Pymmh3.murmur3 s0 ["10.0.0.1"]) = Ok s ∧
       (0 = 0 → SCBloomFilter.n s = 0) ∧
       (SCBloomFilter.n s = 0 →
        ∀ key, @SCBloomFilter.should_exists Pymmh3.murmur3 s key = Ok false).
Proof.
  split; [lia|].
  apply (@unused_filter_answers_false Pymmh3.murmur3 2 3 4 0 1); lia.
Defined.

(** ** A filter with unusable parameters, and the oracle behind it *)
Section FilterErrors.
Context {H : Mmh3}.
Import SCBloomFilter.

(** X17.  The constructor accepts unusable parameters and the first call
    fails: with [memory_size = 0] every [add_new] raises
    [ZeroDivisionError]; with [bf_size = 0] and a hash function every
    [should_exists] raises [ZeroDivisionError]; with [bf_size < 0] and a hash
    function the counter array is empty and [should_exists] raises
    [IndexError]. *)
Theorem unusable_filter_fails_at_first_call :
  (∀ s x, memory_size s = 0 → add_new s x = Raise ZeroDivisionError) ∧
  (∀ s key, bf_size s = 0 →
     0 < DataStructure.num_of_hash_functions (base s) →
     should_exists s key = Raise ZeroDivisionError) ∧
  (∀ k cs bf mx mem key, bf < 0 → 0 < k →
     (s ← __init__ k cs bf mx mem; should_exists s key) = Raise IndexError).
Proof.
  split_and!.
  - intros s x Hmem. unfold add_new.
    destruct (put_total (DataStructure.cache (base s)) x) as (c & -> & _).
    cbn [mbind result_bind]. unfold _satisfy_paradox, _get_apriori_prob, truediv.
    cbn [memory_size]. by rewrite Hmem.
  - intros s key Hbf Hk. unfold should_exists, _check_bloom_filter.
    rewrite Hbf, _get_hash_values_zero; done.
  - intros k cs bf mx mem key Hbf Hk. rewrite SCBloomFilter_init.
    cbn [mbind result_bind]. unfold should_exists, _check_bloom_filter.
    rewrite _get_hash_values_ok by (simpl; lia). cbn [mbind result_bind].
    simpl. rewrite indices_cons by done. simpl.
    replace (Z.to_nat bf) with 0%nat by lia. simpl.
    by rewrite getitem_nil.
Qed.

(** X18.  The key just inserted is in the window: after [add_new] on a
    filter whose oracle has capacity at least 1, admitted or not,
    [is_exists] is true for it. *)
Theorem filter_add_new_then_is_exists (s s' : t) (x : string) :
  0 < LRUCache.capacity (DataStructure.cache (base s)) →
  add_new s x = Ok s' →
  is_exists s' x = true.
Proof.
  intros Hcap Hadd.
  destruct (put_holds_key (DataStructure.cache (base s)) x Hcap)
    as (c & Hput & Hc).
  assert (Hbase : DataStructure.cache (base s') = c).
  { unfold add_new in Hadd. rewrite Hput in Hadd.
    cbn [mbind result_bind] in Hadd. fold (observed s c x) in Hadd.
    destruct (_satisfy_paradox (observed s c x)) as [paradox|]; [|done].
    cbn [mbind result_bind] in Hadd.
    destruct paradox; cbn [negb] in Hadd; [by injection Hadd as <-|].
    destruct (max_n (observed s c x) =? n (observed s c x));
      [by injection Hadd as <-|].
    unfold _add_element_to_bloom_filter in Hadd.
    destruct (DataStructure._get_hash_values _ _ _) as [hashed|]; [|done].
    cbn [mbind result_bind] in Hadd.
    destruct (for_in _ _ _) as [bfl|]; [|done].
    cbn [mbind result_bind] in Hadd. unfold _update_bound in Hadd.
    destruct (n _ =? 0); [by injection Hadd as <-|].
    destruct (truediv _ _); [|done].
    cbn [mbind result_bind] in Hadd. by injection Hadd as <-. }
  unfold is_exists, DataStructure.is_exists, LRUCache.check_if_exists.
  rewrite Hbase. by apply contains_true in Hc as ->.
Qed.

End FilterErrors.

Lemma filter_add_new_then_is_exists_example :
  ∃ s',
    (0 < LRUCache.capacity
           (DataStructure.cache
              (SCBloomFilter.base (SCBloomFilter_fresh 2 3 4 1 1))) ∧
     @SCBloomFilter.add_new Pymmh3.murmur3 (SCBloomFilter_fresh 2 3 4 1 1)
        "10.0.0.1" = Ok s') ∧
    SCBloomFilter.is_exists s' "10.0.0.1" = true.
Proof.
  eexists.
  assert (Hcap : 0 < LRUCache.capacity
            (DataStructure.cache
               (SCBloomFilter.base (SCBloomFilter_fresh 2 3 4 1 1))))
    by (simpl; lia).
  eassert (Hadd :
    @SCBloomFilter.add_new Pymmh3.murmur3 (SCBloomFilter_fresh 2 3 4 1 1)
       "10.0.0.1" = Ok _).
  { first_admission
      {| LRUCache.cache := ["10.0.0.1"]; LRUCache.capacity := 3 |}
      [3; 2] [0; 0; 1; 1] 1.
    reflexivity. }
  split; [split; [exact Hcap | exact Hadd]|].
  exact (@filter_add_new_then_is_exists Pymmh3.murmur3 _ _ "10.0.0.1" Hcap Hadd).
Defined.

(** ** The answer of the filter as a test on the odds *)
Section OddsTest.
Context {H : Mmh3}.
Variables (k cs bf mx mem : Z).
Hypothesis k_pos : 0 < k.
Hypothesis cs_pos : 0 < cs.
Hypothesis bf_pos : 0 < bf.
Hypothesis mx_pos : 0 < mx.
Hypothesis mem_pos : 0 < mem.
Import SCBloomFilter.

Lemma posterior_terms_value (s : t) (bf_ans : Z) (p : Q) :
  0 <= DataStructure.num_of_hash_functions (base s) →
  _get_apriori_prob s = Ok p →
  posterior_terms s bf_ans =
    Ok ((inject_Z (bf_size s) ^ DataStructure.num_of_hash_functions (base s)
         * inject_Z bf_ans * p)%Q,
        (inject_Z (bf_size s) ^ DataStructure.num_of_hash_functions (base s)
         * inject_Z bf_ans * p
         + inject_Z (n s * DataStructure.num_of_hash_functions (base s))
           ^ DataStructure.num_of_hash_functions (base s) * (1 - p))%Q).
Proof.
  intros Hk Hp. unfold posterior_terms. rewrite Hp. cbn [mbind result_bind].
  unfold math.pow_int.
  destruct (Z.ltb_spec (DataStructure.num_of_hash_functions (base s)) 0);
    [lia|].
  by rewrite !andb_false_r.
Qed.

(** The quotient meets the threshold [1 / (1 + ALPHA)] exactly when the
    denominator is at most [1 + ALPHA] times the numerator. *)
Lemma threshold_test (nom den : Q) :
  (0 < den)%Q →
  ∃ res, fdiv nom den = Ok res ∧
         (Qle_bool (1 / (1 + inject_Z ALPHA)) res = true ↔
          (den <= (1 + inject_Z ALPHA) * nom)%Q).
Proof.
  intros Hden. exists (nom / den)%Q. split.
  - unfold fdiv. destruct (Qeq_bool den 0) eqn:Hz; [|done].
    apply Qeq_bool_iff in Hz. lra.
  - rewrite Qle_bool_iff. unfold ALPHA.
    assert (Hres : (nom / den * den == nom)%Q) by (field; lra).
    set (res := (nom / den)%Q) in *.
    assert (Ht : (1 / (1 + inject_Z 100) * 101 == 1)%Q) by reflexivity.
    set (t := (1 / (1 + inject_Z 100))%Q) in *.
    assert (Hc : (1 + inject_Z 100 == 101)%Q) by reflexivity.
    rewrite Hc, <- Hres. split; intros Hle; nra.
Qed.

(** X19.  [ALPHA] is an odds ratio: in a filter built with positive
    parameters and [cache_size <= memory_size], [should_exists] answers
    [True] exactly when the Bloom answer is not [0] and
    [(n * k) ^ k * (1 - p) <= ALPHA * bf_size ^ k * bf_ans * p], with
    [p = len(cache) / memory_size]. *)
Theorem answer_is_an_odds_test (keys : list string) (key : string) :
  cs <= mem →
  ∃ s bf_ans p b,
    (s0 ← __init__ k cs bf mx mem; add_all s0 keys) = Ok s ∧
    _check_bloom_filter s key = Ok bf_ans ∧
    _get_apriori_prob s = Ok p ∧
    should_exists s key = Ok b ∧
    (b = true ↔
       bf_ans ≠ 0 ∧
       (inject_Z (n s * k) ^ k * (1 - p)
        <= inject_Z ALPHA * (inject_Z bf ^ k * inject_Z bf_ans * p))%Q).
Proof.
  intros Hfits.
  destruct (run_filter k cs bf mx mem bf_pos ltac:(lia) ltac:(lia) keys)
    as (s & Hrun & Hs).
  destruct (check_of_filter k cs bf mx mem k_pos bf_pos s key Hs)
    as (r & Hcheck & Hr0 & Hadmitted).
  pose proof Hs as [Hk Hbf _ Hmem _ _ _ Hcap Hlru _ _].
  destruct (prior_in_unit s) as (p & Hp & Hunit); [lia| |].
  { destruct Hlru as [_ Hlen]; [lia|]. unfold LRUCache.__len__. lia. }
  destruct (Z.eq_dec r 0) as [->|Hne].
  - exists s, 0, p, false. split_and!; try done.
    + unfold should_exists. by rewrite Hcheck.
    + split; [done|]. intros [Hbad _]. done.
  - pose proof (posterior_terms_value s r p ltac:(lia) Hp) as Hterms.
    destruct (posterior_defined s r p)
      as (nom & den & res & Hpt & Hden & _);
      [lia | lia | by apply Hadmitted | lia | done | done |].
    pose proof Hpt as Hterms'.
    rewrite Hterms in Hterms'. injection Hterms' as Hnom Hdenq.
    rewrite Hk, Hbf in Hnom, Hdenq.
    destruct (threshold_test nom den Hden) as (res' & Hdiv & Hiff).
    exists s, r, p, (Qle_bool (1 / (1 + inject_Z ALPHA)) res').
    split_and!; try done.
    + unfold should_exists. rewrite Hcheck. cbn [mbind result_bind].
      destruct (Z.eqb_spec r 0); [done|].
      rewrite Hpt. cbn [mbind result_bind]. by rewrite Hdiv.
    + rewrite Hiff. rewrite <- Hdenq, <- Hnom. unfold ALPHA.
      set (A := (inject_Z bf ^ k * inject_Z r * p)%Q).
      set (B := (inject_Z (n s * k) ^ k * (1 - p))%Q).
      assert (Hc : (inject_Z 100 == 100)%Q) by reflexivity.
      rewrite Hc. split.
      * intros Hle. split; [done|]. lra.
      * intros [_ Hle]. lra.
Qed.

End OddsTest.
